(** * Z180 Mini-ITX emulator: bus decode, port dispatch, PPI, RETI detector
      and execution scheduler

    A shallow embedding of the platform glue of the emulator: the
    physical bus decoder ([z180_phys_read], [z180_phys_write]), the CPU
    memory hooks with the ED 4D sequence detector ([mem_read]), the
    82C55 model ([ppi_read], [ppi_write], [ppi_recalc]), the port
    dispatcher ([io_read], [io_write]) and the body of the main loop.

    C integers are integers of [Z] with the conversions written out
    where the source narrows a value; the statics of the translation
    unit are the fields of one record; everything the unit calls in
    other translation units (CPU core, Z180 I/O block, lib765, IDE and
    SD card models) is an interface. *)

From Stdlib Require Import ZArith List Bool Lia.
Import ListNotations.
Local Open Scope Z_scope.

(** ** C integer conventions *)

(** A parameter or a static holds a value of its C type: a byte for
    [uint8_t], a 16 bit address for the CPU hooks.  The functions below
    take such values as they are and write the conversion out where the
    source computes a wider value and narrows it; a statement that
    depends on the value of a parameter carries the range of its type as
    a hypothesis. *)

(** A C condition is true when the scrutinee is not zero. *)
Definition truthy (z : Z) : bool := negb (z =? 0).

(** Conversion to [uint8_t]. *)
Definition u8 (z : Z) : Z := z mod 256.

(** Conversion to a 32 bit [int] (two's complement wrap). *)
Definition sint32 (z : Z) : Z := (z + 2 ^ 31) mod 2 ^ 32 - 2 ^ 31.

(** [a[i] = v] on an array seen as a function of its index. *)
Definition store (a : Z -> Z) (i v : Z) : Z -> Z :=
  fun j => if j =? i then v else a j.

Definition TRACE_MEM : Z := 0x000001.
Definition TRACE_IO : Z := 0x000002.
Definition TRACE_UNK : Z := 0x000004.
Definition TRACE_IRQ : Z := 0x000020.
Definition TRACE_IDE : Z := 0x000200.

(** [static uint16_t tstate_steps = 737]; nothing assigns it. *)
Definition tstate_steps : Z := 737.

(** ** Observable events

    What the unit prints and what it calls in other units, in program
    order. *)

Inductive event : Type :=
  (* fprintf(stderr, ...) and printf/write(1, ...) *)
  | stderr_rom_write (addr : Z)
  | stderr_mem_R (addr pa r : Z)
  | stderr_mem_W (addr pa val : Z)
  | stderr_RETI
  | stderr_io_read (addr : Z)
  | stderr_io_write (addr val : Z)
  | stderr_unknown_read (addr : Z)
  | stderr_unknown_write (addr val : Z)
  | stderr_invalid_ppi
  | stderr_ide_read (addr r : Z)
  | stderr_ide_write (addr val : Z)
  | stderr_fdc_read (addr : Z)
  | stderr_fdc_value (val : Z)
  | stderr_fdc_write (addr val : Z)
  | stdout_trace_set (t : Z)
  | stdout_leds (val : Z)
  (* calls into the device models *)
  | call_z180_interrupt
  | call_z180_read (addr : Z)
  | call_z180_write (addr val : Z)
  | call_sd_spi_raise_cs
  | call_sd_spi_lower_cs
  | call_ide_read8 (addr : Z)
  | call_ide_write8 (addr val : Z)
  | call_fdc_read_ctrl
  | call_fdc_read_data
  | call_fdc_write_data (val : Z)
  | call_fdc_write_dor (val : Z)
  | call_fdc_write_drr (val : Z)
  | call_fdc_set_terminal_count (tc : Z)
  (* calls made by the main loop *)
  | call_z180_dma (used : Z)
  | call_Z180Execute (used : Z)
  | call_z180_event (states : Z)
  | call_fdc_tick
  | call_nanosleep.

(** ** The device models

    [X] is the state of everything that lives outside the unit: the CPU
    context [cpu_z180] (its layout comes from libz180), the Z180 I/O
    block [io], the floppy controller, the IDE controller and the SD
    card.  The unit reads three fields of the CPU context and calls the
    entry points below. *)

Class Devices (X : Type) : Type := {
  cpu_M1 : X -> Z;
  cpu_IFF1 : X -> Z;
  cpu_IFF2 : X -> Z;
  z180_mmu_translate : X -> Z -> Z;
  z180_iospace : X -> Z -> bool;
  z180_read : X -> Z -> Z * X;
  z180_write : X -> Z -> Z -> X;
  z180_interrupt : X -> X;               (* z180_interrupt(io, 0, 0, 0) *)
  sd_spi_raise_cs : X -> X;
  sd_spi_lower_cs : X -> X;
  ide_read8 : X -> Z -> Z * X;
  ide_write8 : X -> Z -> Z -> X;
  fdc_read_ctrl : X -> Z * X;
  fdc_read_data : X -> Z * X;
  fdc_write_data : X -> Z -> X;
  fdc_write_dor : X -> Z -> X;
  fdc_write_drr : X -> Z -> X;
  fdc_set_terminal_count : X -> Z -> X;
  fdc_tick : X -> X
}.

(** ** The statics of the unit *)

Record machine {X : Type} : Type := {
  ram : Z -> Z;          (* static uint8_t ram[1024 * 1024] *)
  rom : Z -> Z;          (* static uint8_t rom[512 * 1024] *)
  port_a : Z;
  port_b : Z;
  port_c : Z;
  port_ctl : Z;
  fast : Z;
  int_recalc : Z;
  leds : Z;
  sdcard : bool;         (* sdcard != NULL *)
  ide : Z;
  live_irq : Z;
  trace : Z;
  rstate : Z;            (* static local of mem_read *)
  old_cs : Z;            (* static local of ppi_recalc *)
  ext : X
}.
Arguments machine X : clear implicits.

(** ** The engines

    The DMA engine, the CPU core and the timer block of the Z180 re-enter
    the unit through the bus and port hooks while they run, so a call of
    one of them transforms the whole machine; the first two return the
    number of clock states they used. *)

Class Engines (X : Type) : Type := {
  z180_dma : machine X -> Z * machine X;
  Z180Execute : machine X -> Z * machine X;
  z180_event : machine X -> Z -> machine X
}.

Section Emulator.

Context {X : Type} `{Devices X} `{Engines X}.

Local Abbreviation machine := (machine X).

(** Assignment to one static. *)
Definition set_ram (v : Z -> Z) (s : machine) : machine :=
  {| ram := v; rom := rom s; port_a := port_a s; port_b := port_b s;
     port_c := port_c s; port_ctl := port_ctl s; fast := fast s;
     int_recalc := int_recalc s; leds := leds s; sdcard := sdcard s;
     ide := ide s; live_irq := live_irq s; trace := trace s;
     rstate := rstate s; old_cs := old_cs s; ext := ext s |}.

Definition set_port_a (v : Z) (s : machine) : machine :=
  {| ram := ram s; rom := rom s; port_a := v; port_b := port_b s;
     port_c := port_c s; port_ctl := port_ctl s; fast := fast s;
     int_recalc := int_recalc s; leds := leds s; sdcard := sdcard s;
     ide := ide s; live_irq := live_irq s; trace := trace s;
     rstate := rstate s; old_cs := old_cs s; ext := ext s |}.

Definition set_port_b (v : Z) (s : machine) : machine :=
  {| ram := ram s; rom := rom s; port_a := port_a s; port_b := v;
     port_c := port_c s; port_ctl := port_ctl s; fast := fast s;
     int_recalc := int_recalc s; leds := leds s; sdcard := sdcard s;
     ide := ide s; live_irq := live_irq s; trace := trace s;
     rstate := rstate s; old_cs := old_cs s; ext := ext s |}.

Definition set_port_c (v : Z) (s : machine) : machine :=
  {| ram := ram s; rom := rom s; port_a := port_a s; port_b := port_b s;
     port_c := v; port_ctl := port_ctl s; fast := fast s;
     int_recalc := int_recalc s; leds := leds s; sdcard := sdcard s;
     ide := ide s; live_irq := live_irq s; trace := trace s;
     rstate := rstate s; old_cs := old_cs s; ext := ext s |}.

Definition set_port_ctl (v : Z) (s : machine) : machine :=
  {| ram := ram s; rom := rom s; port_a := port_a s; port_b := port_b s;
     port_c := port_c s; port_ctl := v; fast := fast s;
     int_recalc := int_recalc s; leds := leds s; sdcard := sdcard s;
     ide := ide s; live_irq := live_irq s; trace := trace s;
     rstate := rstate s; old_cs := old_cs s; ext := ext s |}.

Definition set_int_recalc (v : Z) (s : machine) : machine :=
  {| ram := ram s; rom := rom s; port_a := port_a s; port_b := port_b s;
     port_c := port_c s; port_ctl := port_ctl s; fast := fast s;
     int_recalc := v; leds := leds s; sdcard := sdcard s; ide := ide s;
     live_irq := live_irq s; trace := trace s; rstate := rstate s;
     old_cs := old_cs s; ext := ext s |}.

Definition set_live_irq (v : Z) (s : machine) : machine :=
  {| ram := ram s; rom := rom s; port_a := port_a s; port_b := port_b s;
     port_c := port_c s; port_ctl := port_ctl s; fast := fast s;
     int_recalc := int_recalc s; leds := leds s; sdcard := sdcard s;
     ide := ide s; live_irq := v; trace := trace s; rstate := rstate s;
     old_cs := old_cs s; ext := ext s |}.

Definition set_trace (v : Z) (s : machine) : machine :=
  {| ram := ram s; rom := rom s; port_a := port_a s; port_b := port_b s;
     port_c := port_c s; port_ctl := port_ctl s; fast := fast s;
     int_recalc := int_recalc s; leds := leds s; sdcard := sdcard s;
     ide := ide s; live_irq := live_irq s; trace := v;
     rstate := rstate s; old_cs := old_cs s; ext := ext s |}.

Definition set_rstate (v : Z) (s : machine) : machine :=
  {| ram := ram s; rom := rom s; port_a := port_a s; port_b := port_b s;
     port_c := port_c s; port_ctl := port_ctl s; fast := fast s;
     int_recalc := int_recalc s; leds := leds s; sdcard := sdcard s;
     ide := ide s; live_irq := live_irq s; trace := trace s;
     rstate := v; old_cs := old_cs s; ext := ext s |}.

Definition set_old_cs (v : Z) (s : machine) : machine :=
  {| ram := ram s; rom := rom s; port_a := port_a s; port_b := port_b s;
     port_c := port_c s; port_ctl := port_ctl s; fast := fast s;
     int_recalc := int_recalc s; leds := leds s; sdcard := sdcard s;
     ide := ide s; live_irq := live_irq s; trace := trace s;
     rstate := rstate s; old_cs := v; ext := ext s |}.

Definition set_ext (v : X) (s : machine) : machine :=
  {| ram := ram s; rom := rom s; port_a := port_a s; port_b := port_b s;
     port_c := port_c s; port_ctl := port_ctl s; fast := fast s;
     int_recalc := int_recalc s; leds := leds s; sdcard := sdcard s;
     ide := ide s; live_irq := live_irq s; trace := trace s;
     rstate := rstate s; old_cs := old_cs s; ext := v |}.

(** The initialisers of the statics.  [main] fills RAM with [rand()]
    bytes, loads the ROM image and sets [trace], [leds], [fast], [ide]
    and [sdcard] from the command line before the first bus access. *)
Definition machine_init (ram0 rom0 : Z -> Z) (trace0 leds0 fast0 ide0 : Z)
    (sd : bool) (x : X) : machine :=
  {| ram := ram0; rom := rom0;
     port_a := 0xFF; port_b := 0xFF; port_c := 0xFF; port_ctl := 0x9B;
     fast := fast0; int_recalc := 0; leds := leds0; sdcard := sd;
     ide := ide0; live_irq := 0; trace := trace0;
     rstate := 0; old_cs := 7; ext := x |}.

(** ** State and output monad *)

Definition M (A : Type) : Type := machine -> A * machine * list event.

Definition ret {A : Type} (a : A) : M A := fun s => (a, s, []).

Definition bind {A B : Type} (m : M A) (k : A -> M B) : M B :=
  fun s =>
    let r1 := m s in
    let r2 := k (fst (fst r1)) (snd (fst r1)) in
    (fst (fst r2), snd (fst r2), snd r1 ++ snd r2).

Definition get : M machine := fun s => (s, s, []).
Definition modify (f : machine -> machine) : M unit := fun s => (tt, f s, []).
Definition emit (e : event) : M unit := fun s => (tt, s, [e]).
Definition when (b : bool) (m : M unit) : M unit := if b then m else ret tt.

(** A call that only changes the device state. *)
Definition device (e : event) (f : X -> X) : M unit :=
  fun s => (tt, set_ext (f (ext s)) s, [e]).

(** A call that returns a value and changes the device state. *)
Definition device_read (e : event) (f : X -> Z * X) : M Z :=
  fun s => (fst (f (ext s)), set_ext (snd (f (ext s))) s, [e]).

Notation "x <- m ;; k" := (bind m (fun x => k))
  (at level 61, m at next level, right associativity).
Notation "m ;;; k" := (bind m (fun _ => k))
  (at level 61, right associativity).

Definition result {A : Type} (r : A * machine * list event) : A := fst (fst r).
Definition final {A : Type} (r : A * machine * list event) : machine := snd (fst r).
Definition output {A : Type} (r : A * machine * list event) : list event := snd r.

(** ** The physical bus *)

Definition z180_phys_read (s : machine) (addr : Z) : Z :=
  if truthy (Z.land addr 0x80000) then
    if truthy (Z.land (port_a s) 0x04) then ram s (Z.land addr 0xFFFFF)
    else 0xFF
  else if truthy (Z.land (port_a s) 0x08) then rom s (Z.land addr 0x3FFFF)
  else ram s (Z.land addr 0xFFFFF).

Definition z180_phys_write (addr val : Z) : M unit :=
  let addr := Z.land addr 0xFFFFF in
  s <- get ;;
  if truthy (Z.land addr 0x80000) then
    when (truthy (Z.land (port_a s) 0x04)) (modify (set_ram (store (ram s) addr val)))
  else if truthy (Z.land (port_a s) 0x08) then emit (stderr_rom_write addr)
  else modify (set_ram (store (ram s) addr val)).

(** ** CPU accesses, starting from a virtual address *)

Definition do_mem_read0 (addr : Z) (quiet : bool) : M Z :=
  s <- get ;;
  let pa := z180_mmu_translate (ext s) addr in
  let r := z180_phys_read s pa in
  when (negb quiet && truthy (Z.land (trace s) TRACE_MEM))
       (emit (stderr_mem_R addr pa r)) ;;;
  ret r.

Definition mem_write0 (addr val : Z) : M unit :=
  s <- get ;;
  let pa := z180_mmu_translate (ext s) addr in
  when (truthy (Z.land (trace s) TRACE_MEM)) (emit (stderr_mem_W addr pa val)) ;;;
  z180_phys_write pa val.

Definition poll_irq_event : M unit := device call_z180_interrupt z180_interrupt.

Definition reti_event : M unit :=
  s <- get ;;
  when (truthy (live_irq s) && truthy (Z.land (trace s) TRACE_IRQ))
       (emit stderr_RETI) ;;;
  modify (set_live_irq 0) ;;;
  poll_irq_event.

(** The two early returns of the [if (cpu_z180.M1)] block are the first
    two branches; the last branch is the code after the block, reached
    when [M1] is clear or neither test of the block holds. *)
Definition mem_read (addr : Z) : M Z :=
  r <- do_mem_read0 addr false ;;
  s <- get ;;
  let m1 := truthy (cpu_M1 (ext s)) in
  if m1 && ((r =? 0xDD) || (r =? 0xFD) || (r =? 0xCB)) then
    modify (set_rstate 2) ;;; ret r
  else if m1 && ((r =? 0xED) && (rstate s =? 0)) then
    modify (set_rstate 1) ;;; ret r
  else
    when ((r =? 0x4D) && (rstate s =? 1)) reti_event ;;;
    modify (set_rstate 0) ;;;
    ret r.

Definition mem_write (addr val : Z) : M unit := mem_write0 addr val.

Definition recalc_interrupts : M unit := modify (set_int_recalc 1).

(** ** Floppy controller registers

    Each message is recorded with the register and the value it prints;
    the decoded bit names of the DOR and DCR lines are a function of the
    value. *)

Definition fdc_write (addr val : Z) : M unit :=
  if addr =? 1 then
    emit (stderr_fdc_write addr val) ;;;
    device (call_fdc_write_data val) (fun x => fdc_write_data x val)
  else if addr =? 2 then
    emit (stderr_fdc_write addr val) ;;;
    device (call_fdc_write_dor val) (fun x => fdc_write_dor x val)
  else if addr =? 3 then
    emit (stderr_fdc_write addr val) ;;;
    device (call_fdc_write_drr (Z.land val 3)) (fun x => fdc_write_drr x (Z.land val 3))
  else if addr =? 4 then
    device (call_fdc_set_terminal_count 0) (fun x => fdc_set_terminal_count x 0) ;;;
    device (call_fdc_set_terminal_count 1) (fun x => fdc_set_terminal_count x 1) ;;;
    emit (stderr_fdc_write addr val)
  else
    emit (stderr_fdc_write addr val).

Definition fdc_read (addr : Z) : M Z :=
  emit (stderr_fdc_read addr) ;;;
  val <- (if addr =? 0 then device_read call_fdc_read_ctrl fdc_read_ctrl
          else if addr =? 1 then device_read call_fdc_read_data fdc_read_data
          else ret 0x78) ;;
  emit (stderr_fdc_value val) ;;;
  ret val.

Definition diag_write (val : Z) : M unit :=
  s <- get ;;
  if leds s =? 0 then ret tt else emit (stdout_leds val).

(** ** The 82C55 *)

Definition ppi_recalc : M unit :=
  s <- get ;;
  let new_cs := Z.land (port_c s) 7 in
  if sdcard s && negb (new_cs =? old_cs s) then
    (if old_cs s =? 0 then device call_sd_spi_raise_cs sd_spi_raise_cs
     else if new_cs =? 0 then device call_sd_spi_lower_cs sd_spi_lower_cs
     else ret tt) ;;;
    modify (set_old_cs new_cs)
  else ret tt.

Definition ppi_read (addr : Z) : M Z :=
  s <- get ;;
  if addr =? 0 then
    ret (if truthy (Z.land (port_ctl s) 0x10) then 0xFF else port_a s)
  else if addr =? 1 then
    ret (if truthy (Z.land (port_ctl s) 0x02) then 0xFF else port_b s)
  else if addr =? 2 then
    let r := if truthy (Z.land (port_ctl s) 0x01) then 0x0F
             else Z.land (port_c s) 0x0F in
    ret (if truthy (Z.land (port_ctl s) 0x08) then Z.lor r 0xF0
         else Z.lor r (Z.land (port_c s) 0xF0))
  else if addr =? 3 then ret (port_ctl s)
  else emit stderr_invalid_ppi ;;; ret 0xFF.

(** The [switch] of [ppi_write]. *)
Definition ppi_write_switch (addr val : Z) : M unit :=
  s <- get ;;
  if addr =? 0 then modify (set_port_a val)
  else if addr =? 1 then modify (set_port_b val)
  else if addr =? 2 then modify (set_port_c val)
  else if addr =? 3 then
    if truthy (Z.land val 0x80) then modify (set_port_ctl val)
    else
      let bit := Z.land val 1 in
      let val := Z.land (Z.shiftr val 1) 0x07 in
      let c := u8 (Z.land (port_c s) (Z.lnot (Z.shiftl 1 val))) in
      modify (set_port_c (if truthy bit then u8 (Z.lor c (Z.shiftl 1 val)) else c))
  else emit stderr_invalid_ppi.

Definition ppi_write (addr val : Z) : M unit :=
  ppi_write_switch addr val ;;;
  ppi_recalc.

(** ** Port dispatch *)

Definition my_ide_read (addr : Z) : M Z :=
  r <- device_read (call_ide_read8 addr) (fun x => ide_read8 x addr) ;;
  s <- get ;;
  when (truthy (Z.land (trace s) TRACE_IDE)) (emit (stderr_ide_read addr r)) ;;;
  ret r.

Definition my_ide_write (addr val : Z) : M unit :=
  s <- get ;;
  when (truthy (Z.land (trace s) TRACE_IDE)) (emit (stderr_ide_write addr val)) ;;;
  device (call_ide_write8 addr val) (fun x => ide_write8 x addr val).

Definition io_read (addr : Z) : M Z :=
  s <- get ;;
  when (truthy (Z.land (trace s) TRACE_IO)) (emit (stderr_io_read addr)) ;;;
  if z180_iospace (ext s) addr then
    device_read (call_z180_read addr) (fun x => z180_read x addr)
  else
    let addr := Z.land addr 0xFF in
    if (0x10 <=? addr) && (addr <=? 0x17) && (ide s =? 1) then
      my_ide_read (Z.land addr 7)
    else if (0x70 <=? addr) && (addr <? 0x77) then fdc_read (Z.land addr 7)
    else if (0x78 <=? addr) && (addr <=? 0x7F) then ppi_read (Z.land addr 3)
    else
      when (truthy (Z.land (trace s) TRACE_UNK)) (emit (stderr_unknown_read addr)) ;;;
      ret 0xFF.

Definition io_write (addr val : Z) : M unit :=
  s <- get ;;
  when (truthy (Z.land (trace s) TRACE_IO)) (emit (stderr_io_write addr val)) ;;;
  if z180_iospace (ext s) addr then
    device (call_z180_write addr val) (fun x => z180_write x addr val)
  else
    let addr := Z.land addr 0xFF in
    if (0x10 <=? addr) && (addr <=? 0x17) && (ide s =? 1) then
      my_ide_write (Z.land addr 7) val
    else if (0x70 <=? addr) && (addr <? 0x78) then fdc_write (Z.land addr 7) val
    else if (0x78 <=? addr) && (addr <=? 0x7F) then ppi_write (Z.land addr 3) val
    else if addr =? 0x0D then diag_write val
    else if addr =? 0xFD then
      let t := Z.lor (Z.land (trace s) 0xFF00) val in
      modify (set_trace t) ;;; emit (stdout_trace_set t)
    else if addr =? 0xFE then
      let t := Z.lor (Z.land (trace s) 0xFF) (Z.shiftl val 8) in
      modify (set_trace t) ;;; emit (stdout_trace_set t)
    else when (truthy (Z.land (trace s) TRACE_UNK)) (emit (stderr_unknown_write addr val)).

(** ** The main loop

    The [while (states < tstate_steps)] loop has no bound of its own: it
    stops when the engines have used the quantum.  [fuel] bounds the
    number of iterations of each such loop; a run that exhausts it
    returns [None] together with the events so far. *)

Definition engine (e : Z -> event) (f : machine -> Z * machine) : M Z :=
  fun s => (fst (f s), snd (f s), [e (fst (f s))]).

Fixpoint run_quantum (fuel : nat) (states : Z) {struct fuel} : M (option Z) :=
  if states <? tstate_steps then
    match fuel with
    | O => ret None
    | S fuel' =>
        used <- engine call_z180_dma z180_dma ;;
        used <- (if used =? 0 then engine call_Z180Execute Z180Execute
                 else ret used) ;;
        run_quantum fuel' (sint32 (states + used))
    end
  else ret (Some states).

Definition minor_tick (fuel : nat) (states : Z) : M (option Z) :=
  r <- run_quantum fuel states ;;
  match r with
  | None => ret None
  | Some states =>
      (fun s => (tt, z180_event s states, [call_z180_event states])) ;;;
      ret (Some (sint32 (states - tstate_steps)))
  end.

(** [for (j = 0; j < n; j++)] around one minor tick. *)
Fixpoint minor_ticks (n fuel : nat) (states : Z) {struct n} : M (option Z) :=
  match n with
  | O => ret (Some states)
  | S n' =>
      r <- minor_tick fuel states ;;
      match r with
      | None => ret None
      | Some states => minor_ticks n' fuel states
      end
  end.

(** [for (i = 0; i < n; i++)] around ten minor ticks and [fdc_tick]. *)
Fixpoint fdc_groups (n fuel : nat) (states : Z) {struct n} : M (option Z) :=
  match n with
  | O => ret (Some states)
  | S n' =>
      r <- minor_ticks 10 fuel states ;;
      match r with
      | None => ret None
      | Some states =>
          device call_fdc_tick fdc_tick ;;;
          fdc_groups n' fuel states
      end
  end.

(** The [if (int_recalc)] block that ends the body of the main loop. *)
Definition service_recalc : M unit :=
  s <- get ;;
  if truthy (int_recalc s) then
    when (negb (truthy (live_irq s))) poll_irq_event ;;;
    s' <- get ;;
    when (negb (truthy (Z.lor (cpu_IFF1 (ext s')) (cpu_IFF2 (ext s')))))
         (modify (set_int_recalc 0))
  else ret tt.

(** Everything before that block: 50 x 10 minor ticks, then the sleep. *)
Definition run_20ms (fuel : nat) : M (option Z) :=
  r <- fdc_groups 50 fuel 0 ;;
  match r with
  | None => ret None
  | Some states =>
      s <- get ;;
      when (negb (truthy (fast s))) (emit call_nanosleep) ;;;
      ret (Some states)
  end.

(** One pass of the body of [while (!emulator_done)]. *)
Definition main_pass (fuel : nat) : M bool :=
  r <- run_20ms fuel ;;
  match r with
  | None => ret false
  | Some _ => service_recalc ;;; ret true
  end.

(** ** Auxiliary notions for the statements *)

(** What [mem_read] prints before the detector runs. *)
Definition mem_trace (s : machine) (addr : Z) : list event :=
  if truthy (Z.land (trace s) TRACE_MEM)
  then [stderr_mem_R addr (z180_mmu_translate (ext s) addr)
          (z180_phys_read s (z180_mmu_translate (ext s) addr))]
  else [].

(** What [reti_event] prints. *)
Definition reti_trace (s : machine) : list event :=
  if truthy (live_irq s) && truthy (Z.land (trace s) TRACE_IRQ)
  then [stderr_RETI] else [].

(** The cached chip select agrees with port C. *)
Definition cs_coherent (s : machine) : Prop := old_cs s = Z.land (port_c s) 7.

(** What the port hooks print on entry and for an unmatched port. *)
Definition io_read_trace (s : machine) (addr : Z) : list event :=
  if truthy (Z.land (trace s) TRACE_IO) then [stderr_io_read addr] else [].

Definition io_write_trace (s : machine) (addr val : Z) : list event :=
  if truthy (Z.land (trace s) TRACE_IO) then [stderr_io_write addr val] else [].

Definition unknown_read_trace (s : machine) (addr : Z) : list event :=
  if truthy (Z.land (trace s) TRACE_UNK) then [stderr_unknown_read addr] else [].

(** The engines make progress: an iteration of the inner loop uses at
    least one state, and fewer than 2^30. *)
Definition engines_progress : Prop :=
  forall s : machine,
    0 <= fst (z180_dma s) < 2 ^ 30 /\
    (fst (z180_dma s) = 0 ->
     0 < fst (Z180Execute (snd (z180_dma s))) < 2 ^ 30).

(** ** Further entry points and notions *)

(** The disassembler's read: [do_mem_read0] with [quiet] set. *)
Definition z80dis_byte_quiet (addr : Z) : M Z := do_mem_read0 addr true.

(** The bank decode: whether the physical address is backed by RAM
    under the current value of port A. *)
Definition ram_mapped (s : machine) (addr : Z) : bool :=
  if Z.testbit addr 19 then Z.testbit (port_a s) 2
  else negb (Z.testbit (port_a s) 3).

(** The bit set/reset command of the 82C55 on the value of port C: the
    [else] branch of sub-address 3 in [ppi_write]. *)
Definition bit_set_reset (pc v : Z) : Z :=
  let i := Z.land (Z.shiftr v 1) 7 in
  let c := u8 (Z.land pc (Z.lnot (Z.shiftl 1 i))) in
  if Z.testbit v 0 then u8 (Z.lor c (Z.shiftl 1 i)) else c.

(** A sequence of port writes, as the CPU core issues them. *)
Fixpoint io_writes (ws : list (Z * Z)) : M unit :=
  match ws with
  | [] => ret tt
  | (addr, val) :: ws' => io_write addr val ;;; io_writes ws'
  end.

End Emulator.

(** ** A small concrete platform

    An instance of the interfaces to run the definitions on: the MMU is
    the identity, the internal I/O block claims ports below 0x40, the
    DMA engine moves [d_dma] bursts of 6 states and is idle afterwards,
    and every instruction takes [1 + (d_cycles & 0x7F)] states. *)

Record demo_ext : Type := {
  d_M1 : Z;
  d_IFF1 : Z;
  d_IFF2 : Z;
  d_dma : Z;
  d_cycles : Z
}.

Definition demo_set_M1 (m : Z) (x : demo_ext) : demo_ext :=
  {| d_M1 := m; d_IFF1 := d_IFF1 x; d_IFF2 := d_IFF2 x;
     d_dma := d_dma x; d_cycles := d_cycles x |}.

Definition demo_set_dma (n : Z) (x : demo_ext) : demo_ext :=
  {| d_M1 := d_M1 x; d_IFF1 := d_IFF1 x; d_IFF2 := d_IFF2 x;
     d_dma := n; d_cycles := d_cycles x |}.

#[export] Instance demo_devices : Devices demo_ext := {|
  cpu_M1 := d_M1;
  cpu_IFF1 := d_IFF1;
  cpu_IFF2 := d_IFF2;
  z180_mmu_translate := fun _ addr => addr;
  z180_iospace := fun _ addr => addr <? 0x40;
  z180_read := fun x _ => (0, x);
  z180_write := fun x _ _ => x;
  z180_interrupt := fun x => x;
  sd_spi_raise_cs := fun x => x;
  sd_spi_lower_cs := fun x => x;
  ide_read8 := fun x _ => (0, x);
  ide_write8 := fun x _ _ => x;
  fdc_read_ctrl := fun x => (0x80, x);
  fdc_read_data := fun x => (0, x);
  fdc_write_data := fun x _ => x;
  fdc_write_dor := fun x _ => x;
  fdc_write_drr := fun x _ => x;
  fdc_set_terminal_count := fun x _ => x;
  fdc_tick := fun x => x
|}.

#[export] Instance demo_engines : Engines demo_ext := {|
  z180_dma := fun s =>
    if 0 <? d_dma (ext s)
    then (6, set_ext (demo_set_dma (d_dma (ext s) - 1) (ext s)) s)
    else (0, s);
  Z180Execute := fun s => (1 + Z.land (d_cycles (ext s)) 0x7F, s);
  z180_event := fun s _ => s
|}.

(** A DMA engine that never lets go of the bus. *)
Definition stalled_engines : Engines demo_ext := {|
  z180_dma := fun s => (6, s);
  Z180Execute := fun s => (1 + Z.land (d_cycles (ext s)) 0x7F, s);
  z180_event := fun s _ => s
|}.

(** A ROM image whose byte at offset [a] is the number of its 64 KiB
    bank, RAM filled with 0x55, CPU with interrupts enabled. *)
Definition demo_x : demo_ext :=
  {| d_M1 := 1; d_IFF1 := 1; d_IFF2 := 1; d_dma := 3; d_cycles := 99 |}.

Definition demo_rom (a : Z) : Z := Z.shiftr a 16.
Definition demo_ram (a : Z) : Z := 0x55.

Definition demo : machine demo_ext :=
  machine_init demo_ram demo_rom 0 0 1 0 true demo_x.

(** A ROM image that starts with the bytes ED DD ED 4D, and the same
    platform running from it. *)
Definition reti_rom (a : Z) : Z :=
  if a =? 0 then 0xED
  else if a =? 1 then 0xDD
  else if a =? 2 then 0xED
  else if a =? 3 then 0x4D
  else 0x00.

Definition reti_demo : machine demo_ext :=
  machine_init demo_ram reti_rom 0 0 1 0 true demo_x.

(** The platform after a peripheral has asked for a recalculation. *)
Definition sched_demo : machine demo_ext := set_int_recalc 1 demo.

(** The platform with chip select 3 on port C. *)
Definition cs3_demo : machine demo_ext := set_old_cs 3 (set_port_c 0xFB demo).

(** The platform without an SD card. *)
Definition nocard_demo : machine demo_ext :=
  machine_init demo_ram demo_rom 0 0 1 0 false demo_x.

(** Port C to 0xF8 (select 0), to 0xFD (select 5), then bit 1 set. *)
Definition cs_writes : list (Z * Z) := [(0x7A, 0xF8); (0x7A, 0xFD); (0x7B, 0x03)].

(** The CPU core changing the [M1] field between two bus cycles. *)
Definition with_M1 (m : Z) (s : machine demo_ext) : machine demo_ext :=
  set_ext (demo_set_M1 m (ext s)) s.

(** ** Counting events *)

Definition is_poll (e : event) : bool :=
  match e with call_z180_interrupt => true | _ => false end.

Definition is_minor_tick (e : event) : bool :=
  match e with call_z180_event _ => true | _ => false end.

Definition is_fdc_tick (e : event) : bool :=
  match e with call_fdc_tick => true | _ => false end.

Definition is_cs_event (e : event) : bool :=
  match e with
  | call_sd_spi_raise_cs | call_sd_spi_lower_cs => true
  | _ => false
  end.

Definition is_fdc_event (e : event) : bool :=
  match e with
  | stderr_fdc_read _ | stderr_fdc_value _ | stderr_fdc_write _ _
  | call_fdc_read_ctrl | call_fdc_read_data | call_fdc_write_data _
  | call_fdc_write_dor _ | call_fdc_write_drr _
  | call_fdc_set_terminal_count _ => true
  | _ => false
  end.

(** The chip-select calls of an output, in order. *)
Definition cs_events (evs : list event) : list event := filter is_cs_event evs.

Definition count (p : event -> bool) (evs : list event) : nat :=
  length (filter p evs).

(** ** DMA before CPU

    The shape of an output in which every call of the CPU core directly
    follows a call of the DMA engine that used no states, and no call of
    the DMA engine that used states is followed by a CPU call before the
    DMA engine is asked again. *)

Definition is_engine_call (e : event) : bool :=
  match e with
  | call_z180_dma _ | call_Z180Execute _ => true
  | _ => false
  end.

Inductive dma_first : list event -> Prop :=
  | dma_first_nil : dma_first []
  | dma_first_busy (used : Z) (evs : list event) :
      used <> 0 -> dma_first evs -> dma_first (call_z180_dma used :: evs)
  | dma_first_idle (used : Z) (evs : list event) :
      dma_first evs ->
      dma_first (call_z180_dma 0 :: call_Z180Execute used :: evs)
  | dma_first_other (e : event) (evs : list event) :
      is_engine_call e = false -> dma_first evs -> dma_first (e :: evs).

(** The same shape as a check that runs on an output. *)
Fixpoint dma_firstb (evs : list event) : bool :=
  match evs with
  | [] => true
  | call_z180_dma used :: rest =>
      if used =? 0 then
        match rest with
        | call_Z180Execute _ :: rest' => dma_firstb rest'
        | _ => false
        end
      else dma_firstb rest
  | call_Z180Execute _ :: _ => false
  | _ :: rest => dma_firstb rest
  end.

(** The RETI event: [reti_event] is the only caller of the interrupt
    controller on the memory path. *)
Definition reti_events (evs : list event) : nat := count is_poll evs.

(** The prefixes DD, FD and CB. *)
Definition is_prefix (r : Z) : bool := (r =? 0xDD) || (r =? 0xFD) || (r =? 0xCB).

(** The chip-select calls of an output alternate: starting from
    [selected] (the card is selected, select value 0), a raise comes
    only while selected and a lower only while not selected. *)
Fixpoint cs_alternates (selected : bool) (evs : list event) : bool :=
  match evs with
  | [] => true
  | call_sd_spi_lower_cs :: rest => negb selected && cs_alternates true rest
  | call_sd_spi_raise_cs :: rest => selected && cs_alternates false rest
  | _ :: rest => cs_alternates selected rest
  end.

(** ** The floppy part of [main]

    The [-F] case of the option loop and the set-up of the two drives.
    [P] is the type of a path; a [char *] that may be [NULL] is an
    option.  The calls into lib765 are recorded with the variable whose
    handle they are given. *)

Inductive drive_var : Type := drive_a | drive_b.

Inductive setup_call (P : Type) : Type :=
  | call_fd_newdsk (d : drive_var)          (* d = fd_newdsk() *)
  | call_fd_new (d : drive_var)             (* d = fd_new() *)
  | call_fd_settype (d : drive_var)         (* fd_settype(d, FD_35) *)
  | call_fd_setheads (d : drive_var) (n : Z)
  | call_fd_setcyls (d : drive_var) (n : Z)
  | call_fdd_setfilename (d : drive_var) (path : P)
  | call_fdc_reset
  | call_fdc_setisr
  | call_fdc_setdrive (unit : Z) (d : drive_var).

Arguments call_fd_newdsk {P}.
Arguments call_fd_new {P}.
Arguments call_fd_settype {P}.
Arguments call_fd_setheads {P}.
Arguments call_fd_setcyls {P}.
Arguments call_fdd_setfilename {P}.
Arguments call_fdc_reset {P}.
Arguments call_fdc_setisr {P}.
Arguments call_fdc_setdrive {P}.

(** [case 'F'] on [(patha, pathb)]; [None] is the [exit(1)]. *)
Definition option_F {P : Type} (optarg : P) (paths : option P * option P)
    : option (option P * option P) :=
  match paths with
  | (_, Some _) => None
  | (Some a, None) => Some (Some a, Some optarg)
  | (None, None) => Some (Some optarg, None)
  end.

(** The [-F] options of a command line, in order. *)
Fixpoint floppy_options {P : Type} (args : list P) (paths : option P * option P)
    : option (option P * option P) :=
  match args with
  | [] => Some paths
  | optarg :: args' =>
      match option_F optarg paths with
      | Some paths' => floppy_options args' paths'
      | None => None
      end
  end.

(** From [if (patha)] to the two calls of [fdc_setdrive]. *)
Definition drive_setup {P : Type} (paths : option P * option P)
    : list (setup_call P) :=
  (match fst paths with
   | Some patha =>
       [call_fd_newdsk drive_a; call_fd_settype drive_a;
        call_fd_setheads drive_a 2; call_fd_setcyls drive_a 80;
        call_fdd_setfilename drive_a patha]
   | None => [call_fd_new drive_a]
   end)
  ++ (match snd paths with
      | Some pathb =>
          [call_fd_newdsk drive_b; call_fd_settype drive_a;
           call_fd_setheads drive_a 2; call_fd_setcyls drive_a 80;
           call_fdd_setfilename drive_a pathb]
      | None => [call_fd_new drive_b]
      end)
  ++ [call_fdc_reset; call_fdc_setisr;
      call_fdc_setdrive 0 drive_a; call_fdc_setdrive 1 drive_b].

(** The drive a call configures (type, geometry or file name). *)
Definition configured {P : Type} (c : setup_call P) : option drive_var :=
  match c with
  | call_fd_settype d | call_fd_setheads d _ | call_fd_setcyls d _
  | call_fdd_setfilename d _ => Some d
  | _ => None
  end.

(** The file names given to the drives, in order. *)
Fixpoint filenames {P : Type} (calls : list (setup_call P))
    : list (drive_var * P) :=
  match calls with
  | [] => []
  | call_fdd_setfilename d path :: rest => (d, path) :: filenames rest
  | _ :: rest => filenames rest
  end.

(** ** The line of [diag_write]

    The buffer that [diag_write] hands to [write(1, x, 12)]: the
    template with an at sign for every set bit of the value. *)

Definition diag_template : list Z :=
  [0x0A; 0x5B; 0x2D; 0x2D; 0x2D; 0x2D; 0x2D; 0x2D; 0x2D; 0x2D; 0x5D; 0x0A].

(** [x[n] = v]. *)
Fixpoint set_nth (n : nat) (v : Z) (x : list Z) : list Z :=
  match x, n with
  | [], _ => []
  | _ :: x', O => v :: x'
  | c :: x', S n' => c :: set_nth n' v x'
  end.

Definition diag_line (val : Z) : list Z :=
  fold_left
    (fun x i =>
       if truthy (Z.land val (Z.shiftl 1 (Z.of_nat i)))
       then set_nth (i + 2) 0x40 x else x)
    (seq 0 8) diag_template.

(** ** More counting *)

Definition is_sleep (e : event) : bool :=
  match e with call_nanosleep => true | _ => false end.

Definition is_cpu_call (e : event) : bool :=
  match e with call_Z180Execute _ => true | _ => false end.

(** The ticks of an output in order: [false] for a call of
    [z180_event], [true] for a call of [fdc_tick]. *)
Definition tick_pattern (evs : list event) : list bool :=
  map is_fdc_tick (filter (fun e => is_minor_tick e || is_fdc_tick e) evs).

(** The clock states the engines report in an output. *)
Fixpoint used_total (evs : list event) : Z :=
  match evs with
  | [] => 0
  | call_z180_dma used :: rest => used + used_total rest
  | call_Z180Execute used :: rest => used + used_total rest
  | _ :: rest => used_total rest
  end.

(** * Properties *)

Section Facts.

Context {X : Type} `{Devices X} `{Engines X}.

Local Abbreviation machine := (machine X).

(** ** Masks and bits *)

Lemma land_pow2 (z n : Z) :
  0 <= n -> Z.land z (2 ^ n) = if Z.testbit z n then 2 ^ n else 0.
Proof.
  intros Hn. apply Z.bits_inj'. intros i Hi.
  rewrite Z.land_spec, Z.pow2_bits_eqb by assumption.
  destruct (Z.eqb_spec n i) as [->|Hne].
  - rewrite andb_true_r. destruct (Z.testbit z i) eqn:E.
    + now rewrite Z.pow2_bits_true.
    + now rewrite Z.bits_0.
  - rewrite andb_false_r. destruct (Z.testbit z n).
    + now rewrite Z.pow2_bits_false.
    + now rewrite Z.bits_0.
Qed.

Lemma truthy_land_pow2 (z n : Z) :
  0 <= n -> truthy (Z.land z (2 ^ n)) = Z.testbit z n.
Proof.
  intros Hn. rewrite land_pow2 by assumption. unfold truthy.
  destruct (Z.testbit z n); [|reflexivity].
  assert (0 < 2 ^ n) by (apply Z.pow_pos_nonneg; lia).
  destruct (Z.eqb_spec (2 ^ n) 0); [lia|reflexivity].
Qed.

Lemma bit19_mask (z : Z) : truthy (Z.land z 0x80000) = Z.testbit z 19.
Proof. exact (truthy_land_pow2 z 19 ltac:(lia)). Qed.

Lemma bit2_mask (z : Z) : truthy (Z.land z 0x04) = Z.testbit z 2.
Proof. exact (truthy_land_pow2 z 2 ltac:(lia)). Qed.

Lemma bit3_mask (z : Z) : truthy (Z.land z 0x08) = Z.testbit z 3.
Proof. exact (truthy_land_pow2 z 3 ltac:(lia)). Qed.

Lemma bit7_mask (z : Z) : truthy (Z.land z 0x80) = Z.testbit z 7.
Proof. exact (truthy_land_pow2 z 7 ltac:(lia)). Qed.

(** Masking to 20 bits keeps bit 19. *)
Lemma bit19_of_masked (addr : Z) :
  Z.testbit (Z.land addr 0xFFFFF) 19 = Z.testbit addr 19.
Proof.
  rewrite Z.land_spec. change (Z.testbit 0xFFFFF 19) with true.
  apply andb_true_r.
Qed.

(** ** The physical bus *)

Ltac run :=
  cbv [z180_phys_write bind ret get modify emit when device device_read
       result final output fst snd].

(** Case analysis on the conditions of a goal, innermost first. *)
Ltac split_ifs :=
  repeat (match goal with
          | |- context [if ?c then _ else _] =>
              lazymatch c with
              | context [if _ then _ else _] => fail
              | _ => destruct c
              end
          end; cbv beta iota);
  reflexivity.

Lemma phys_write_eq (s : machine) (addr val : Z) :
  z180_phys_write addr val s =
    if Z.testbit addr 19 then
      if Z.testbit (port_a s) 2
      then (tt, set_ram (store (ram s) (Z.land addr 0xFFFFF) val) s, [])
      else (tt, s, [])
    else if Z.testbit (port_a s) 3
      then (tt, s, [stderr_rom_write (Z.land addr 0xFFFFF)])
      else (tt, set_ram (store (ram s) (Z.land addr 0xFFFFF) val) s, []).
Proof.
  run. rewrite bit19_mask, bit19_of_masked, bit2_mask, bit3_mask.
  destruct (Z.testbit addr 19), (Z.testbit (port_a s) 2),
    (Z.testbit (port_a s) 3); reflexivity.
Qed.

Lemma phys_read_eq (s : machine) (addr : Z) :
  z180_phys_read s addr =
    if Z.testbit addr 19 then
      if Z.testbit (port_a s) 2 then ram s (Z.land addr 0xFFFFF) else 0xFF
    else if Z.testbit (port_a s) 3 then rom s (Z.land addr 0x3FFFF)
    else ram s (Z.land addr 0xFFFFF).
Proof.
  unfold z180_phys_read. now rewrite bit19_mask, bit2_mask, bit3_mask.
Qed.

(** C1 (the ROM window as the code decodes it).  With bit 19 of the
    address clear and the ROM-enable bit of port A set, a read returns
    the ROM byte at the low 18 bits of the address: the mask in
    [z180_phys_read] is 0x3FFFF, so the upper 256 KiB of the 512 KiB ROM
    array are never read and 0x40000..0x7FFFF alias 0x00000..0x3FFFF. *)
Theorem phys_read_rom_wraps_at_256K (s : machine) (addr : Z) :
  Z.testbit addr 19 = false ->
  Z.testbit (port_a s) 3 = true ->
  z180_phys_read s addr = rom s (Z.land addr 0x3FFFF).
Proof.
  intros Hbase Hrom. now rewrite phys_read_eq, Hbase, Hrom.
Qed.

(** Below 256 KiB the mask is the identity and the read is the ROM byte
    at the address itself. *)
Lemma phys_read_rom_low_quarter (s : machine) (addr : Z) :
  0 <= addr < 0x40000 ->
  Z.testbit (port_a s) 3 = true ->
  z180_phys_read s addr = rom s addr.
Proof.
  intros Hlo Hrom.
  assert (Hmask : Z.land addr 0x3FFFF = addr).
  { change 0x3FFFF with (Z.ones 18). rewrite Z.land_ones by lia.
    apply Z.mod_small. change (2 ^ 18) with 0x40000. lia. }
  assert (Hbase : Z.testbit addr 19 = false).
  { rewrite <- Hmask, Z.land_spec. apply andb_false_r. }
  now rewrite phys_read_eq, Hbase, Hrom, Hmask.
Qed.

(** A write to the base half while the ROM is enabled changes neither
    array; it prints the diagnostic. *)
Lemma phys_write_rom_discarded (s : machine) (addr val : Z) :
  Z.testbit addr 19 = false ->
  Z.testbit (port_a s) 3 = true ->
  z180_phys_write addr val s = (tt, s, [stderr_rom_write (Z.land addr 0xFFFFF)]).
Proof.
  intros Hbase Hrom. now rewrite phys_write_eq, Hbase, Hrom.
Qed.

(** With the ROM disabled the base half is RAM, for reads and writes, at
    the address masked to 20 bits. *)
Lemma phys_base_ram_when_rom_disabled (s : machine) (addr val : Z) :
  Z.testbit addr 19 = false ->
  Z.testbit (port_a s) 3 = false ->
  z180_phys_read s addr = ram s (Z.land addr 0xFFFFF) /\
  z180_phys_write addr val s =
    (tt, set_ram (store (ram s) (Z.land addr 0xFFFFF) val) s, []) /\
  z180_phys_read (final (z180_phys_write addr val s)) addr = val.
Proof.
  intros Hbase Hrom. rewrite phys_write_eq, Hbase, Hrom.
  cbn [final fst snd]. rewrite !phys_read_eq, Hbase.
  cbn [set_ram port_a ram]. rewrite Hrom.
  repeat split. unfold store. now rewrite Z.eqb_refl.
Qed.

(** C2.  With bit 19 of the address set and the extended-memory-enable
    bit of port A clear, a read returns 0xFF and a write changes nothing
    (no array, no register, no output), so the read after the write is
    the read before it. *)
Theorem phys_extended_disabled (s : machine) (addr val : Z) :
  Z.testbit addr 19 = true ->
  Z.testbit (port_a s) 2 = false ->
  z180_phys_read s addr = 0xFF /\
  z180_phys_write addr val s = (tt, s, []) /\
  z180_phys_read (final (z180_phys_write addr val s)) addr
    = z180_phys_read s addr.
Proof.
  intros Hext Hen. rewrite phys_write_eq, Hext, Hen.
  cbn [final fst snd]. rewrite phys_read_eq, Hext, Hen.
  repeat split.
Qed.

(** ** The CPU memory hook and the ED 4D detector *)

Lemma mem_read_eq (s : machine) (addr : Z) :
  let r := z180_phys_read s (z180_mmu_translate (ext s) addr) in
  mem_read addr s =
    if truthy (cpu_M1 (ext s)) && is_prefix r then
      (r, set_rstate 2 s, mem_trace s addr)
    else if truthy (cpu_M1 (ext s)) && ((r =? 0xED) && (rstate s =? 0)) then
      (r, set_rstate 1 s, mem_trace s addr)
    else if (r =? 0x4D) && (rstate s =? 1) then
      (r, set_rstate 0 (set_ext (z180_interrupt (ext s)) (set_live_irq 0 s)),
       mem_trace s addr ++ reti_trace s ++ [call_z180_interrupt])
    else (r, set_rstate 0 s, mem_trace s addr).
Proof.
  cbv zeta. unfold mem_read, do_mem_read0, reti_event, poll_irq_event,
    mem_trace, reti_trace, is_prefix.
  run. cbn [negb andb]. split_ifs.
Qed.

Lemma mem_read_result (s : machine) (addr : Z) :
  result (mem_read addr s) = z180_phys_read s (z180_mmu_translate (ext s) addr).
Proof.
  rewrite mem_read_eq. cbv zeta.
  repeat match goal with
         | |- context [if ?c then _ else _] => destruct c
         end; reflexivity.
Qed.

Lemma count_app (p : event -> bool) (l1 l2 : list event) :
  count p (l1 ++ l2) = (count p l1 + count p l2)%nat.
Proof. unfold count. now rewrite filter_app, length_app. Qed.

Lemma reti_events_mem_trace (s : machine) (addr : Z) :
  reti_events (mem_trace s addr) = 0%nat.
Proof. unfold mem_trace. now destruct (truthy _). Qed.

Lemma reti_events_reti_trace (s : machine) : reti_events (reti_trace s) = 0%nat.
Proof. unfold reti_trace. now destruct (_ && _). Qed.

(** A read that delivers 4D in detector state 1 runs [reti_event],
    whatever [M1] is. *)
Lemma mem_read_4D_in_state_1 (s : machine) (addr : Z) :
  rstate s = 1 ->
  result (mem_read addr s) = 0x4D ->
  reti_events (output (mem_read addr s)) = 1%nat /\
  final (mem_read addr s)
    = set_rstate 0 (set_ext (z180_interrupt (ext s)) (set_live_irq 0 s)).
Proof.
  intros Hst Hr. rewrite mem_read_result in Hr.
  rewrite mem_read_eq. cbv zeta. rewrite Hr, Hst.
  change (is_prefix 0x4D) with false. cbn [Z.eqb Pos.eqb andb].
  rewrite !andb_false_r. cbn [output final fst snd]. split; [|reflexivity].
  unfold reti_events. rewrite !count_app.
  fold (reti_events (mem_trace s addr)). fold (reti_events (reti_trace s)).
  now rewrite reti_events_mem_trace, reti_events_reti_trace.
Qed.

(** In any other detector state, or for any other byte, no read runs
    [reti_event]. *)
Lemma mem_read_quiet (s : machine) (addr : Z) :
  rstate s <> 1 \/ result (mem_read addr s) <> 0x4D ->
  reti_events (output (mem_read addr s)) = 0%nat.
Proof.
  intros Hq. rewrite mem_read_result in Hq.
  rewrite mem_read_eq. cbv zeta.
  assert (Hc : (z180_phys_read s (z180_mmu_translate (ext s) addr) =? 0x4D)
               && (rstate s =? 1) = false).
  { apply andb_false_iff. destruct Hq as [Hq|Hq]; [right|left];
      now apply Z.eqb_neq. }
  rewrite Hc.
  repeat match goal with
         | |- context [if ?c then _ else _] => destruct c
         end; apply reti_events_mem_trace.
Qed.

(** The detector state after a read. *)
Lemma mem_read_rstate (s : machine) (addr : Z) :
  let r := result (mem_read addr s) in
  rstate (final (mem_read addr s)) =
    if truthy (cpu_M1 (ext s)) && is_prefix r then 2
    else if truthy (cpu_M1 (ext s)) && ((r =? 0xED) && (rstate s =? 0)) then 1
    else 0.
Proof.
  cbv zeta. rewrite mem_read_result, mem_read_eq. cbv zeta.
  repeat match goal with
         | |- context [if ?c then _ else _] => destruct c
         end; reflexivity.
Qed.

(** C3 (amended).  From the idle detector state, when ED is delivered by
    an opcode fetch and the next memory read delivers 4D, the RETI event
    runs exactly once during that second read, whether the second read
    is an opcode fetch or not: it clears [live_irq], calls the interrupt
    controller and leaves the detector idle.  The first read runs no
    RETI event. *)
Theorem reti_after_ED_fetch (s0 s1 : machine) (a1 a2 : Z) :
  rstate s0 = 0 ->
  truthy (cpu_M1 (ext s0)) = true ->
  result (mem_read a1 s0) = 0xED ->
  rstate s1 = rstate (final (mem_read a1 s0)) ->
  result (mem_read a2 s1) = 0x4D ->
  reti_events (output (mem_read a1 s0)) = 0%nat /\
  reti_events (output (mem_read a2 s1)) = 1%nat /\
  live_irq (final (mem_read a2 s1)) = 0 /\
  ext (final (mem_read a2 s1)) = z180_interrupt (ext s1) /\
  rstate (final (mem_read a2 s1)) = 0.
Proof.
  intros Hidle Hm1 Hed Hnext H4d.
  assert (Hst : rstate s1 = 1).
  { rewrite Hnext, mem_read_rstate. cbv zeta. rewrite Hed, Hm1, Hidle.
    reflexivity. }
  destruct (mem_read_4D_in_state_1 s1 a2 Hst H4d) as [Hfire Hfin].
  split.
  - apply mem_read_quiet. right. rewrite Hed. discriminate.
  - rewrite Hfin. repeat split. exact Hfire.
Qed.

(** C10 (amended).  Starting from the idle detector state, after an
    opcode-fetched ED, a memory read of a byte other than 4D runs no
    RETI event and takes the detector out of state 1, whether it is an
    opcode fetch or not: to state 2 when it is an opcode fetch of DD, FD
    or CB, to the idle state 0 otherwise.  A 4D delivered by the read
    after it runs no RETI event. *)
Theorem detector_left_after_other_byte (s0 s1 s2 : machine) (a1 a2 a3 : Z) :
  rstate s0 = 0 ->
  truthy (cpu_M1 (ext s0)) = true ->
  result (mem_read a1 s0) = 0xED ->
  rstate s1 = rstate (final (mem_read a1 s0)) ->
  result (mem_read a2 s1) <> 0x4D ->
  rstate s2 = rstate (final (mem_read a2 s1)) ->
  reti_events (output (mem_read a2 s1)) = 0%nat /\
  rstate (final (mem_read a2 s1)) =
    (if truthy (cpu_M1 (ext s1)) && is_prefix (result (mem_read a2 s1))
     then 2 else 0) /\
  reti_events (output (mem_read a3 s2)) = 0%nat.
Proof.
  intros Hidle Hm1 Hed Hnext Hother Hthen.
  assert (Hst : rstate s1 = 1).
  { rewrite Hnext, mem_read_rstate. cbv zeta. rewrite Hed, Hm1, Hidle.
    reflexivity. }
  assert (Hst2 : rstate (final (mem_read a2 s1)) =
                 if truthy (cpu_M1 (ext s1)) && is_prefix (result (mem_read a2 s1))
                 then 2 else 0).
  { rewrite mem_read_rstate. cbv zeta. rewrite Hst.
    change (1 =? 0) with false. now rewrite !andb_false_r. }
  split; [|split].
  - apply mem_read_quiet. now right.
  - exact Hst2.
  - apply mem_read_quiet. left. rewrite Hthen, Hst2.
    destruct (_ && _); discriminate.
Qed.

(** ** The 82C55 *)

Lemma ppi_recalc_eq (s : machine) :
  let new_cs := Z.land (port_c s) 7 in
  ppi_recalc s =
    if sdcard s && negb (new_cs =? old_cs s) then
      if old_cs s =? 0 then
        (tt, set_old_cs new_cs (set_ext (sd_spi_raise_cs (ext s)) s),
         [call_sd_spi_raise_cs])
      else if new_cs =? 0 then
        (tt, set_old_cs new_cs (set_ext (sd_spi_lower_cs (ext s)) s),
         [call_sd_spi_lower_cs])
      else (tt, set_old_cs new_cs s, [])
    else (tt, s, []).
Proof. cbv zeta. unfold ppi_recalc. run. split_ifs. Qed.

(** [ppi_recalc] writes [old_cs] and calls the SD card, nothing else. *)
Lemma ppi_recalc_ports (s : machine) :
  port_a (final (ppi_recalc s)) = port_a s /\
  port_b (final (ppi_recalc s)) = port_b s /\
  port_c (final (ppi_recalc s)) = port_c s /\
  port_ctl (final (ppi_recalc s)) = port_ctl s.
Proof.
  rewrite ppi_recalc_eq. cbv zeta.
  repeat match goal with
         | |- context [if ?c then _ else _] => destruct c
         end; repeat split.
Qed.

Lemma ppi_write_final (s : machine) (addr val : Z) :
  final (ppi_write addr val s)
    = final (ppi_recalc (final (ppi_write_switch addr val s))).
Proof. reflexivity. Qed.

Lemma ppi_write_output (s : machine) (addr val : Z) :
  output (ppi_write addr val s)
    = output (ppi_write_switch addr val s)
      ++ output (ppi_recalc (final (ppi_write_switch addr val s))).
Proof. reflexivity. Qed.

Lemma ppi_write_switch_control (s : machine) (v : Z) :
  final (ppi_write_switch 3 v s) =
    if Z.testbit v 7 then set_port_ctl v s
    else
      let i := Z.land (Z.shiftr v 1) 7 in
      let c := u8 (Z.land (port_c s) (Z.lnot (Z.shiftl 1 i))) in
      set_port_c (if Z.testbit v 0 then u8 (Z.lor c (Z.shiftl 1 i)) else c) s.
Proof.
  unfold ppi_write_switch. run. cbn [Z.eqb]. cbv zeta.
  rewrite bit7_mask.
  change (Z.land v 1) with (Z.land v (2 ^ 0)).
  rewrite truthy_land_pow2 by lia.
  now destruct (Z.testbit v 7), (Z.testbit v 0).
Qed.

Lemma testbit_u8 (x j : Z) : Z.testbit (u8 x) j = (j <? 8) && Z.testbit x j.
Proof.
  unfold u8. change 256 with (2 ^ 8). apply Z.testbit_mod_pow2. lia.
Qed.

Lemma testbit_byte_high (x j : Z) :
  0 <= x < 256 -> 8 <= j -> Z.testbit x j = false.
Proof.
  intros Hx Hj. rewrite <- (Z.mod_small x 256) by lia.
  fold (u8 x). rewrite testbit_u8.
  destruct (Z.ltb_spec j 8); [lia|reflexivity].
Qed.

Lemma bit_index_range (v : Z) : 0 <= Z.land (Z.shiftr v 1) 7 < 8.
Proof.
  change 7 with (Z.ones 3). rewrite Z.land_ones by lia.
  apply Z.mod_pos_bound. reflexivity.
Qed.

(** The bit set/reset command: clear bit [i] of the byte, then set it
    when [b] holds. *)
Lemma set_reset_bit (pc i j : Z) (b : bool) :
  0 <= pc < 256 -> 0 <= i < 8 -> 0 <= j ->
  let c := u8 (Z.land pc (Z.lnot (Z.shiftl 1 i))) in
  Z.testbit (if b then u8 (Z.lor c (Z.shiftl 1 i)) else c) j
    = if j =? i then b else Z.testbit pc j.
Proof.
  intros Hpc Hi Hj c.
  assert (Hc : Z.testbit c j = Z.testbit pc j && negb (j =? i)).
  { unfold c. rewrite testbit_u8, Z.land_spec, Z.lnot_spec by assumption.
    rewrite Z.shiftl_1_l, Z.pow2_bits_eqb, (Z.eqb_sym i j) by lia.
    destruct (Z.ltb_spec j 8); [reflexivity|].
    now rewrite (testbit_byte_high pc j) by lia. }
  destruct b.
  - rewrite testbit_u8, Z.lor_spec, Hc.
    rewrite Z.shiftl_1_l, Z.pow2_bits_eqb, (Z.eqb_sym i j) by lia.
    destruct (Z.eqb_spec j i) as [->|Hne].
    + destruct (Z.ltb_spec i 8); [|lia]. now rewrite orb_true_r.
    + rewrite orb_false_r, andb_true_r.
      destruct (Z.ltb_spec j 8); [reflexivity|].
      now rewrite (testbit_byte_high pc j) by lia.
  - rewrite Hc. destruct (Z.eqb_spec j i).
    + apply andb_false_r.
    + apply andb_true_r.
Qed.

(** C6.  A write of [v] to sub-address 3: with bit 7 of [v] set the
    control register becomes [v] and the three ports keep their values;
    with bit 7 clear, bit [(v >> 1) & 7] of port C becomes bit 0 of [v]
    and every other bit of port C, ports A and B and the control
    register keep their values. *)
Theorem ppi_control_write (s : machine) (v : Z) :
  0 <= v < 256 ->
  0 <= port_c s < 256 ->
  let s' := final (ppi_write 3 v s) in
  (Z.testbit v 7 = true ->
     port_ctl s' = v /\
     port_a s' = port_a s /\ port_b s' = port_b s /\ port_c s' = port_c s) /\
  (Z.testbit v 7 = false ->
     (forall j, 0 <= j ->
        Z.testbit (port_c s') j =
          if j =? Z.land (Z.shiftr v 1) 7 then Z.testbit v 0
          else Z.testbit (port_c s) j) /\
     port_a s' = port_a s /\ port_b s' = port_b s /\
     port_ctl s' = port_ctl s).
Proof.
  intros Hv Hpc s'. unfold s'. rewrite ppi_write_final.
  destruct (ppi_recalc_ports (final (ppi_write_switch 3 v s)))
    as (-> & -> & -> & ->).
  rewrite ppi_write_switch_control. split; intros Hbit; rewrite Hbit.
  - repeat split.
  - cbv zeta. cbn [set_port_c port_a port_b port_c port_ctl].
    repeat split. intros j Hj.
    apply set_reset_bit; auto using bit_index_range.
Qed.

Lemma cs_coherent_init (ram0 rom0 : Z -> Z) (trace0 leds0 fast0 ide0 : Z)
    (sd : bool) (x : X) :
  cs_coherent (machine_init ram0 rom0 trace0 leds0 fast0 ide0 sd x).
Proof. reflexivity. Qed.

Lemma ppi_write_switch_keeps (s : machine) (addr val : Z) :
  sdcard (final (ppi_write_switch addr val s)) = sdcard s /\
  old_cs (final (ppi_write_switch addr val s)) = old_cs s /\
  cs_events (output (ppi_write_switch addr val s)) = [].
Proof.
  unfold ppi_write_switch. run.
  repeat match goal with
         | |- context [if ?c then _ else _] => destruct c
         end; repeat split.
Qed.

Lemma ppi_write_chip_select (s : machine) (addr val : Z) :
  sdcard s = true ->
  cs_coherent s ->
  let old := Z.land (port_c s) 7 in
  let new := Z.land (port_c (final (ppi_write addr val s))) 7 in
  cs_events (output (ppi_write addr val s)) =
    (if new =? old then []
     else if old =? 0 then [call_sd_spi_raise_cs]
     else if new =? 0 then [call_sd_spi_lower_cs]
     else []) /\
  old_cs (final (ppi_write addr val s)) = new.
Proof.
  intros Hsd Hcoh. cbv zeta.
  rewrite ppi_write_final, ppi_write_output.
  destruct (ppi_write_switch_keeps s addr val) as (Hsd' & Hold & Hev).
  destruct (ppi_recalc_ports (final (ppi_write_switch addr val s)))
    as (_ & _ & -> & _).
  unfold cs_events in *. rewrite filter_app, Hev. cbn [app].
  rewrite ppi_recalc_eq. cbv zeta.
  unfold cs_coherent in Hcoh. rewrite Hsd', Hsd, Hold, Hcoh. cbn [andb].
  destruct (Z.eqb_spec (Z.land (port_c (final (ppi_write_switch addr val s))) 7)
              (Z.land (port_c s) 7)) as [Heq|Hne]; cbn [negb].
  - cbn [final output fst snd filter]. split; [reflexivity|].
    rewrite Hold, Hcoh. symmetry. exact Heq.
  - destruct (Z.land (port_c s) 7 =? 0); [now split|].
    destruct (Z.land (port_c (final (ppi_write_switch addr val s))) 7 =? 0);
      now split.
Qed.

(** Writes to the 82C55 keep the cache coherent while a card is
    attached. *)
Lemma cs_coherent_ppi_write (s : machine) (addr val : Z) :
  sdcard s = true -> cs_coherent s ->
  cs_coherent (final (ppi_write addr val s)).
Proof.
  intros Hsd Hcoh. exact (proj2 (ppi_write_chip_select s addr val Hsd Hcoh)).
Qed.

(** A port write either is a write to the 82C55 or leaves port C, the
    cache and the card alone. *)
Lemma io_write_cases (s : machine) (addr val : Z) :
  final (io_write addr val s)
    = final (ppi_write (Z.land (Z.land addr 0xFF) 3) val s) \/
  (port_c (final (io_write addr val s)) = port_c s /\
   old_cs (final (io_write addr val s)) = old_cs s /\
   sdcard (final (io_write addr val s)) = sdcard s).
Proof.
  unfold io_write, my_ide_write, fdc_write, diag_write. run.
  repeat (match goal with
          | |- context [if ?c then _ else _] =>
              lazymatch c with
              | context [if _ then _ else _] => fail
              | _ => destruct c
              end
          end; cbv beta iota);
    solve [left; reflexivity | right; repeat split].
Qed.

Lemma ppi_write_sdcard (s : machine) (addr val : Z) :
  sdcard (final (ppi_write addr val s)) = sdcard s.
Proof.
  rewrite ppi_write_final, ppi_recalc_eq. cbv zeta.
  destruct (ppi_write_switch_keeps s addr val) as (Hsd & _ & _).
  repeat match goal with
         | |- context [if ?c then _ else _] => destruct c
         end; exact Hsd.
Qed.

(** So the cache stays coherent across every port write. *)
Lemma cs_coherent_io_write (s : machine) (addr val : Z) :
  sdcard s = true -> cs_coherent s ->
  sdcard (final (io_write addr val s)) = true /\
  cs_coherent (final (io_write addr val s)).
Proof.
  intros Hsd Hcoh.
  destruct (io_write_cases s addr val) as [->|(Hc & Ho & Hs)].
  - split; [now rewrite ppi_write_sdcard|now apply cs_coherent_ppi_write].
  - split; [congruence|]. unfold cs_coherent in *. congruence.
Qed.

(** C7.  With a card attached and the cache coherent (as it is from
    start-up on), a write to the 82C55 that takes the select value from
    non-zero to zero makes exactly one call, [sd_spi_lower_cs]; from
    zero to non-zero exactly one call, [sd_spi_raise_cs]; between two
    non-zero values, or leaving it unchanged, none; and the cache holds
    the new value afterwards. *)
Theorem chip_select_transitions (s : machine) (addr val : Z) :
  sdcard s = true ->
  cs_coherent s ->
  let old := Z.land (port_c s) 7 in
  let r := ppi_write addr val s in
  let new := Z.land (port_c (final r)) 7 in
  (old <> 0 -> new = 0 -> cs_events (output r) = [call_sd_spi_lower_cs]) /\
  (old = 0 -> new <> 0 -> cs_events (output r) = [call_sd_spi_raise_cs]) /\
  (old <> 0 -> new <> 0 -> cs_events (output r) = []) /\
  (new = old -> cs_events (output r) = []) /\
  old_cs (final r) = new.
Proof.
  intros Hsd Hcoh old r new.
  destruct (ppi_write_chip_select s addr val Hsd Hcoh) as [Hev Hcache].
  fold old r new in Hev, Hcache. rewrite Hev.
  repeat split; try assumption.
  - intros Ho Hn. rewrite Hn.
    destruct (Z.eqb_spec 0 old); [congruence|].
    destruct (Z.eqb_spec old 0); [congruence|reflexivity].
  - intros Ho Hn. rewrite Ho.
    destruct (Z.eqb_spec new 0); [congruence|reflexivity].
  - intros Ho Hn.
    destruct (Z.eqb_spec new old); [reflexivity|].
    destruct (Z.eqb_spec old 0); [congruence|].
    destruct (Z.eqb_spec new 0); [congruence|reflexivity].
  - intros Heq. rewrite Heq, Z.eqb_refl. reflexivity.
Qed.

(** ** Port dispatch: the floppy window *)

Lemma sub_address (addr : Z) : Z.land (Z.land addr 0xFF) 7 = Z.land addr 7.
Proof. now rewrite <- Z.land_assoc. Qed.

(** Reads of ports 0x70..0x76 go to [fdc_read] with the low three bits
    of the port. *)
Lemma io_read_fdc_window (s : machine) (addr : Z) :
  z180_iospace (ext s) addr = false ->
  0x70 <= Z.land addr 0xFF < 0x77 ->
  io_read addr s =
    (result (fdc_read (Z.land addr 7) s), final (fdc_read (Z.land addr 7) s),
     io_read_trace s addr ++ output (fdc_read (Z.land addr 7) s)).
Proof.
  intros Hspace Hwin. unfold io_read, io_read_trace. run.
  destruct (truthy (Z.land (trace s) TRACE_IO)); cbv beta iota;
    rewrite Hspace, sub_address;
    replace (0x10 <=? Z.land addr 0xFF) with true by (symmetry; apply Z.leb_le; lia);
    replace (Z.land addr 0xFF <=? 0x17) with false by (symmetry; apply Z.leb_gt; lia);
    replace (0x70 <=? Z.land addr 0xFF) with true by (symmetry; apply Z.leb_le; lia);
    replace (Z.land addr 0xFF <? 0x77) with true by (symmetry; apply Z.ltb_lt; lia);
    reflexivity.
Qed.

(** Writes of ports 0x70..0x77 go to [fdc_write] with the low three
    bits of the port. *)
Lemma io_write_fdc_window (s : machine) (addr val : Z) :
  z180_iospace (ext s) addr = false ->
  0x70 <= Z.land addr 0xFF <= 0x77 ->
  io_write addr val s =
    (tt, final (fdc_write (Z.land addr 7) val s),
     io_write_trace s addr val ++ output (fdc_write (Z.land addr 7) val s)).
Proof.
  intros Hspace Hwin. unfold io_write, io_write_trace. run.
  destruct (truthy (Z.land (trace s) TRACE_IO)); cbv beta iota;
    rewrite Hspace, sub_address;
    replace (0x10 <=? Z.land addr 0xFF) with true by (symmetry; apply Z.leb_le; lia);
    replace (Z.land addr 0xFF <=? 0x17) with false by (symmetry; apply Z.leb_gt; lia);
    replace (0x70 <=? Z.land addr 0xFF) with true by (symmetry; apply Z.leb_le; lia);
    replace (Z.land addr 0xFF <? 0x78) with true by (symmetry; apply Z.ltb_lt; lia);
    cbn [andb]; destruct (fdc_write (Z.land addr 7) val s) as [[[] s'] evs];
    reflexivity.
Qed.

(** What [fdc_read] returns for a register it has no case for. *)
Lemma fdc_read_bogus (s : machine) (addr : Z) :
  addr <> 0 -> addr <> 1 ->
  fdc_read addr s = (0x78, s, [stderr_fdc_read addr; stderr_fdc_value 0x78]).
Proof.
  intros H0' H1'. unfold fdc_read. run.
  destruct (Z.eqb_spec addr 0); [contradiction|].
  destruct (Z.eqb_spec addr 1); [contradiction|]. reflexivity.
Qed.

(** C5 at port 0x77.  A read of a port whose low byte is 0x77, not
    claimed by the internal I/O block, does not reach [fdc_read]: the
    window test of [io_read] is [addr < 0x77], so the read takes the
    unmatched path, returns 0xFF and changes nothing, where [fdc_read 7]
    returns 0x78; the same port on the write side is inside the window
    of [io_write], whose test is [addr < 0x78]. *)
Theorem io_read_0x77_misses_fdc (s : machine) (addr val : Z) :
  z180_iospace (ext s) addr = false ->
  Z.land addr 0xFF = 0x77 ->
  io_read addr s =
    (0xFF, s, io_read_trace s addr ++ unknown_read_trace s 0x77) /\
  count is_fdc_event (output (io_read addr s)) = 0%nat /\
  result (fdc_read (Z.land addr 7) s) = 0x78 /\
  io_write addr val s =
    (tt, final (fdc_write 7 val s),
     io_write_trace s addr val ++ output (fdc_write 7 val s)).
Proof.
  intros Hspace Hport.
  assert (Hsub : Z.land addr 7 = 7) by (now rewrite <- sub_address, Hport).
  assert (Hread : io_read addr s =
            (0xFF, s, io_read_trace s addr ++ unknown_read_trace s 0x77)).
  { unfold io_read, io_read_trace, unknown_read_trace. run.
    destruct (truthy (Z.land (trace s) TRACE_IO)); cbv beta iota;
      rewrite Hspace, Hport; cbn [Z.leb Z.ltb Z.compare Pos.compare
        Pos.compare_cont andb];
      destruct (truthy (Z.land (trace s) TRACE_UNK)); reflexivity. }
  repeat split.
  - exact Hread.
  - rewrite Hread. cbn [output snd]. unfold io_read_trace, unknown_read_trace.
    destruct (truthy (Z.land (trace s) TRACE_IO)),
      (truthy (Z.land (trace s) TRACE_UNK)); reflexivity.
  - rewrite Hsub, fdc_read_bogus by discriminate. reflexivity.
  - rewrite io_write_fdc_window by (rewrite ?Hport; auto; lia).
    now rewrite Hsub.
Qed.

(** ** The main loop *)

Lemma output_bind {A B : Type} (m : M A) (k : A -> M B) (s : machine) :
  output (bind m k s)
    = output (m s) ++ output (k (result (m s)) (final (m s))).
Proof. reflexivity. Qed.

Lemma result_bind {A B : Type} (m : M A) (k : A -> M B) (s : machine) :
  result (bind m k s) = result (k (result (m s)) (final (m s))).
Proof. reflexivity. Qed.

Lemma final_bind {A B : Type} (m : M A) (k : A -> M B) (s : machine) :
  final (bind m k s) = final (k (result (m s)) (final (m s))).
Proof. reflexivity. Qed.

(** One iteration of the [while (states < tstate_steps)] loop. *)
Lemma run_quantum_step (fuel : nat) (states : Z) (s : machine) :
  states < tstate_steps ->
  let d := z180_dma s in
  run_quantum (S fuel) states s =
    if fst d =? 0 then
      let e := Z180Execute (snd d) in
      let r := run_quantum fuel (sint32 (states + fst e)) (snd e) in
      (result r, final r, call_z180_dma 0 :: call_Z180Execute (fst e) :: output r)
    else
      let r := run_quantum fuel (sint32 (states + fst d)) (snd d) in
      (result r, final r, call_z180_dma (fst d) :: output r).
Proof.
  intros Hlt. cbv zeta. cbn [run_quantum].
  replace (states <? tstate_steps) with true by (symmetry; now apply Z.ltb_lt).
  cbv [engine bind ret result final output]. cbn [fst snd].
  destruct (z180_dma s) as [u s1]. cbn [fst snd].
  destruct (Z.eqb_spec u 0) as [->|Hnz]; reflexivity.
Qed.

Lemma run_quantum_done (fuel : nat) (states : Z) (s : machine) :
  tstate_steps <= states ->
  run_quantum fuel states s = (Some states, s, []).
Proof.
  intros Hge. destruct fuel; cbn [run_quantum];
    replace (states <? tstate_steps) with false
      by (symmetry; now apply Z.ltb_ge); reflexivity.
Qed.

Lemma run_quantum_out_of_fuel (states : Z) (s : machine) :
  states < tstate_steps -> run_quantum 0 states s = (None, s, []).
Proof.
  intros Hlt. cbn [run_quantum].
  now replace (states <? tstate_steps) with true
    by (symmetry; now apply Z.ltb_lt).
Qed.

Lemma dma_first_app (l1 l2 : list event) :
  dma_first l1 -> dma_first l2 -> dma_first (l1 ++ l2).
Proof.
  intros H1' H2'. induction H1'; cbn [app]; auto using dma_first.
Qed.

Lemma dma_first_bind {A B : Type} (m : M A) (k : A -> M B) (s : machine) :
  dma_first (output (m s)) ->
  (forall a s', dma_first (output (k a s'))) ->
  dma_first (output (bind m k s)).
Proof.
  intros Hm Hk. rewrite output_bind. now apply dma_first_app.
Qed.

Lemma run_quantum_dma_first (fuel : nat) :
  forall states s, dma_first (output (run_quantum fuel states s)).
Proof.
  induction fuel as [|fuel IH]; intros states s;
    destruct (Z.lt_ge_cases states tstate_steps) as [Hlt|Hge];
    try (rewrite run_quantum_done by assumption; constructor).
  - rewrite run_quantum_out_of_fuel by assumption. constructor.
  - rewrite run_quantum_step by assumption. cbv zeta.
    destruct (Z.eqb_spec (fst (z180_dma s)) 0) as [Hz|Hnz]; cbn [output snd].
    + apply dma_first_idle, IH.
    + apply dma_first_busy; [assumption|apply IH].
Qed.

Lemma minor_tick_dma_first (fuel : nat) (states : Z) (s : machine) :
  dma_first (output (minor_tick fuel states s)).
Proof.
  unfold minor_tick. apply dma_first_bind.
  - apply run_quantum_dma_first.
  - intros [st|] s'; [|constructor].
    cbn. apply dma_first_other; [reflexivity|constructor].
Qed.

Lemma minor_ticks_dma_first (n fuel : nat) :
  forall states s, dma_first (output (minor_ticks n fuel states s)).
Proof.
  induction n as [|n IH]; intros states s; cbn [minor_ticks].
  - constructor.
  - apply dma_first_bind.
    + apply minor_tick_dma_first.
    + intros [st|] s'; [apply IH|constructor].
Qed.

Lemma fdc_groups_dma_first (n fuel : nat) :
  forall states s, dma_first (output (fdc_groups n fuel states s)).
Proof.
  induction n as [|n IH]; intros states s; cbn [fdc_groups].
  - constructor.
  - apply dma_first_bind.
    + apply minor_ticks_dma_first.
    + intros [st|] s'; [|constructor].
      apply dma_first_bind.
      * apply dma_first_other; [reflexivity|constructor].
      * intros _ s''. apply IH.
Qed.

Lemma service_recalc_eq (s : machine) :
  service_recalc s =
    if truthy (int_recalc s) then
      let s1 := if truthy (live_irq s) then s
                else set_ext (z180_interrupt (ext s)) s in
      (tt,
       if truthy (Z.lor (cpu_IFF1 (ext s1)) (cpu_IFF2 (ext s1))) then s1
       else set_int_recalc 0 s1,
       if truthy (live_irq s) then [] else [call_z180_interrupt])
    else (tt, s, []).
Proof.
  cbv zeta. unfold service_recalc, poll_irq_event. run.
  destruct (truthy (int_recalc s)); [|reflexivity].
  destruct (truthy (live_irq s)); cbn [negb]; cbv beta iota;
    cbn [ext set_ext];
    match goal with
    | |- context [truthy (Z.lor ?a ?b)] => destruct (truthy (Z.lor a b))
    end; reflexivity.
Qed.

Lemma run_20ms_dma_first (fuel : nat) (s : machine) :
  dma_first (output (run_20ms fuel s)).
Proof.
  unfold run_20ms. apply dma_first_bind.
  - apply fdc_groups_dma_first.
  - intros [st|] s'; [|constructor].
    apply dma_first_bind.
    + constructor.
    + intros s1 s2. apply dma_first_bind; [|constructor].
      unfold when. destruct (negb _); [|constructor].
      apply dma_first_other; [reflexivity|constructor].
Qed.

Lemma main_pass_dma_first (fuel : nat) (s : machine) :
  dma_first (output (main_pass fuel s)).
Proof.
  unfold main_pass. apply dma_first_bind.
  - apply run_20ms_dma_first.
  - intros [st|] s'; [|constructor].
    apply dma_first_bind; [|constructor].
    rewrite service_recalc_eq. cbv zeta.
    destruct (truthy (int_recalc s')); [|constructor].
    cbn [output snd]. destruct (truthy (live_irq s')); [constructor|].
    apply dma_first_other; [reflexivity|constructor].
Qed.

(** What the shape says about a single CPU call: the event before it is
    a DMA call that used no states. *)
Lemma dma_first_cpu_after_idle_dma (evs : list event) :
  dma_first evs ->
  forall pre used post,
    evs = pre ++ call_Z180Execute used :: post ->
    exists pre', pre = pre' ++ [call_z180_dma 0].
Proof.
  induction 1 as [|u evs Hu Hevs IH|u evs Hevs IH|e evs He Hevs IH];
    intros pre used post Heq.
  - destruct pre; discriminate.
  - destruct pre as [|e pre]; [discriminate|].
    injection Heq as He Heq. subst e.
    destruct (IH _ _ _ Heq) as [pre' Hpre]. subst pre.
    exists (call_z180_dma u :: pre'). reflexivity.
  - destruct pre as [|e1 [|e2 pre]]; try discriminate.
    + injection Heq as He1 _ _. subst e1. exists []. reflexivity.
    + injection Heq as He1 He2 Heq. subst e1 e2.
      destruct (IH _ _ _ Heq) as [pre' Hpre]. subst pre.
      exists (call_z180_dma 0 :: call_Z180Execute u :: pre'). reflexivity.
  - destruct pre as [|e' pre].
    + injection Heq as He' _. subst e. discriminate.
    + injection Heq as He' Heq. subst e'.
      destruct (IH _ _ _ Heq) as [pre' Hpre]. subst pre.
      exists (e :: pre'). reflexivity.
Qed.

(** And about a DMA call that used states: the next event is not a CPU
    call. *)
Lemma dma_first_no_cpu_after_busy_dma (evs : list event) :
  dma_first evs ->
  forall pre used used' post,
    used <> 0 ->
    evs <> pre ++ call_z180_dma used :: call_Z180Execute used' :: post.
Proof.
  induction 1 as [|u evs Hu Hevs IH|u evs Hevs IH|e evs He Hevs IH];
    intros pre used used' post Hused Heq.
  - destruct pre; discriminate.
  - destruct pre as [|e pre].
    + injection Heq as _ Heq. subst evs. inversion Hevs as [| | |e evs' He Hevs'].
      discriminate He.
    + injection Heq as _ Heq. exact (IH _ _ _ _ Hused Heq).
  - destruct pre as [|e1 [|e2 pre]]; try discriminate.
    + injection Heq as Hz _ _. congruence.
    + injection Heq as _ _ Heq. exact (IH _ _ _ _ Hused Heq).
  - destruct pre as [|e' pre].
    + injection Heq as He' _. subst e. discriminate.
    + injection Heq as _ Heq. exact (IH _ _ _ _ Hused Heq).
Qed.

Lemma dma_firstb_complete (evs : list event) :
  dma_first evs -> dma_firstb evs = true.
Proof.
  induction 1 as [|u evs Hu Hevs IH|u evs Hevs IH|e evs He Hevs IH].
  - reflexivity.
  - cbn [dma_firstb]. now destruct (Z.eqb_spec u 0).
  - exact IH.
  - destruct e; try exact IH; discriminate He.
Qed.

Lemma dma_firstb_sound_upto (n : nat) :
  forall evs, (length evs <= n)%nat -> dma_firstb evs = true -> dma_first evs.
Proof.
  induction n as [|n IH]; intros evs Hlen Hb.
  - destruct evs; [constructor|cbn in Hlen; lia].
  - destruct evs as [|e rest]; [constructor|]. cbn [length] in Hlen.
    destruct e;
      try (apply dma_first_other; [reflexivity|apply IH; [lia|exact Hb]]).
    + cbn [dma_firstb] in Hb.
      destruct (Z.eqb_spec used 0) as [->|Hused].
      * destruct rest as [|e' rest']; [discriminate Hb|].
        destruct e'; try discriminate Hb.
        apply dma_first_idle, IH; [cbn [length] in Hlen; lia|exact Hb].
      * apply dma_first_busy; [exact Hused|apply IH; [lia|exact Hb]].
    + discriminate Hb.
Qed.

Lemma dma_firstb_spec (evs : list event) :
  dma_firstb evs = true <-> dma_first evs.
Proof.
  split.
  - apply (dma_firstb_sound_upto (length evs)). lia.
  - apply dma_firstb_complete.
Qed.

(** C8.  In the output of a pass of the main loop, whatever the engines
    do and however far the pass gets, every iteration of the inner loop
    asks the DMA engine first; a CPU call appears only directly after a
    DMA call that used no states, and never after one that used some. *)
Theorem dma_before_cpu (fuel : nat) (s : machine) :
  let evs := output (main_pass fuel s) in
  dma_first evs /\
  (forall pre used post,
     evs = pre ++ call_Z180Execute used :: post ->
     exists pre', pre = pre' ++ [call_z180_dma 0]) /\
  (forall pre used used' post,
     used <> 0 ->
     evs <> pre ++ call_z180_dma used :: call_Z180Execute used' :: post).
Proof.
  intros evs. pose proof (main_pass_dma_first fuel s) as Hshape.
  split; [exact Hshape|split].
  - now apply dma_first_cpu_after_idle_dma.
  - now apply dma_first_no_cpu_after_busy_dma.
Qed.

(** *** Counting the ticks of a pass *)

Lemma count_bind {A B : Type} (p : event -> bool) (m : M A) (k : A -> M B)
    (s : machine) :
  count p (output (bind m k s))
    = (count p (output (m s))
       + count p (output (k (result (m s)) (final (m s)))))%nat.
Proof. now rewrite output_bind, count_app. Qed.

Lemma run_quantum_count (p : event -> bool) (fuel : nat) :
  (forall e, is_engine_call e = true -> p e = false) ->
  forall states s, count p (output (run_quantum fuel states s)) = 0%nat.
Proof.
  intros Hp. induction fuel as [|fuel IH]; intros states s;
    destruct (Z.lt_ge_cases states tstate_steps) as [Hlt|Hge];
    try (now rewrite run_quantum_done by assumption).
  - now rewrite run_quantum_out_of_fuel by assumption.
  - rewrite run_quantum_step by assumption. cbv zeta.
    destruct (fst (z180_dma s) =? 0); cbn [output snd]; unfold count;
      cbn [filter]; rewrite !Hp by reflexivity; apply IH.
Qed.

Lemma minor_tick_counts (fuel : nat) (states : Z) (s : machine) :
  let r := minor_tick fuel states s in
  count is_poll (output r) = 0%nat /\
  count is_fdc_tick (output r) = 0%nat /\
  (result r <> None -> count is_minor_tick (output r) = 1%nat).
Proof.
  cbv zeta. unfold minor_tick.
  rewrite !count_bind, result_bind, !run_quantum_count
    by (intros [] ?; reflexivity || discriminate).
  destruct (result (run_quantum fuel states s)); repeat split.
  intros Hr. now contradiction Hr.
Qed.

Lemma minor_ticks_counts (n fuel : nat) :
  forall states s,
    let r := minor_ticks n fuel states s in
    count is_poll (output r) = 0%nat /\
    count is_fdc_tick (output r) = 0%nat /\
    (result r <> None -> count is_minor_tick (output r) = n).
Proof.
  induction n as [|n IH]; intros states s; cbv zeta; cbn [minor_ticks].
  - repeat split.
  - rewrite !count_bind, result_bind.
    destruct (minor_tick_counts fuel states s) as (-> & -> & Hone).
    destruct (result (minor_tick fuel states s)) as [st|].
    + destruct (IH st (final (minor_tick fuel states s))) as (-> & -> & Hn).
      repeat split. intros Hr. rewrite Hone by discriminate.
      now rewrite Hn.
    + repeat split. intros Hr. now contradiction Hr.
Qed.

Lemma fdc_groups_counts (n fuel : nat) :
  forall states s,
    let r := fdc_groups n fuel states s in
    count is_poll (output r) = 0%nat /\
    (result r <> None ->
     count is_minor_tick (output r) = (10 * n)%nat /\
     count is_fdc_tick (output r) = n).
Proof.
  induction n as [|n IH]; intros states s; cbv zeta; cbn [fdc_groups].
  - repeat split.
  - rewrite !count_bind, result_bind.
    destruct (minor_ticks_counts 10 fuel states s) as (-> & -> & Hten).
    destruct (result (minor_ticks 10 fuel states s)) as [st|].
    + rewrite !count_bind, result_bind.
      set (s' := final (device call_fdc_tick fdc_tick
                          (final (minor_ticks 10 fuel states s)))).
      destruct (IH st s') as (-> & Hn).
      split; [reflexivity|]. intros Hr.
      destruct (Hn Hr) as [-> ->]. rewrite Hten by discriminate.
      split; [cbn [output snd device count filter is_minor_tick length]; lia
             |reflexivity].
    + split; [reflexivity|]. intros Hr. now contradiction Hr.
Qed.

Lemma run_20ms_counts (fuel : nat) (s : machine) :
  let r := run_20ms fuel s in
  count is_poll (output r) = 0%nat /\
  (result r <> None ->
   count is_minor_tick (output r) = 500%nat /\
   count is_fdc_tick (output r) = 50%nat).
Proof.
  cbv zeta. unfold run_20ms. rewrite !count_bind, result_bind.
  destruct (fdc_groups_counts 50 fuel 0 s) as (-> & Hn).
  destruct (result (fdc_groups 50 fuel 0 s)) as [st|].
  - destruct (Hn ltac:(discriminate)) as [-> ->].
    set (s' := final (fdc_groups 50 fuel 0 s)).
    split; [|intros _; split];
      cbv [bind get when ret emit result final output]; cbn [fst snd];
      destruct (negb (truthy (fast s'))); reflexivity.
  - split; [reflexivity|]. intros Hr. now contradiction Hr.
Qed.

(** C4 (amended).  The recalculation flag is examined once per pass of
    the main loop, after the 500 minor ticks (and the sleep) of the
    pass, not once per minor tick: a pass that completes makes 500 calls
    of [z180_event] and no call of the interrupt controller before the
    block, then runs the block once.  The block calls the interrupt
    controller exactly when the flag is set and [live_irq] is clear, and
    it clears the flag exactly when the flag was set and neither [IFF1]
    nor [IFF2] is set after that; otherwise the flag keeps its value. *)
Theorem recalc_serviced_once_per_pass (fuel : nat) (s : machine) :
  result (main_pass fuel s) = true ->
  let ticks := run_20ms fuel s in
  let s1 := final ticks in
  let block := service_recalc s1 in
  main_pass fuel s = (true, final block, output ticks ++ output block) /\
  count is_minor_tick (output ticks) = 500%nat /\
  count is_poll (output ticks) = 0%nat /\
  count is_minor_tick (output block) = 0%nat /\
  count is_poll (output block) =
    (if truthy (int_recalc s1) && negb (truthy (live_irq s1))
     then 1%nat else 0%nat) /\
  int_recalc (final block) =
    (if truthy (int_recalc s1)
        && negb (truthy (Z.lor (cpu_IFF1 (ext (final block)))
                               (cpu_IFF2 (ext (final block)))))
     then 0 else int_recalc s1).
Proof.
  intros Hdone. cbv zeta.
  destruct (run_20ms_counts fuel s) as [Hpoll Hticks]. cbv zeta in Hticks.
  unfold main_pass in *. rewrite result_bind in Hdone.
  cbv [bind]. cbn [fst snd].
  fold (result (run_20ms fuel s)) in *. fold (final (run_20ms fuel s)) in *.
  fold (output (run_20ms fuel s)) in *.
  destruct (result (run_20ms fuel s)) as [st|]; [|discriminate Hdone].
  destruct (Hticks ltac:(discriminate)) as [Hminor _].
  split; [|split; [exact Hminor|split; [exact Hpoll|]]].
  - cbv [bind ret final output]. cbn [fst snd]. now rewrite app_nil_r.
  - rewrite service_recalc_eq. cbv zeta.
    set (s1 := final (run_20ms fuel s)).
    destruct (truthy (int_recalc s1)); [|repeat split].
    cbn [andb final output fst snd].
    destruct (truthy (live_irq s1)); cbn [negb];
      match goal with
      | |- context [if truthy ?c then _ else _] =>
          destruct (truthy c) eqn:Hiff
      end; cbn [ext set_int_recalc set_ext int_recalc] in Hiff |- *;
      rewrite ?Hiff; repeat split.
Qed.

(** *** A pass completes

    With engines that make progress, 737 iterations are enough for
    every run of the inner loop, so a pass with that much fuel reaches
    its end. *)

Lemma sint32_small (z : Z) : - 2 ^ 31 <= z < 2 ^ 31 -> sint32 z = z.
Proof. intros Hz. unfold sint32. rewrite Z.mod_small; lia. Qed.

Lemma run_quantum_completes (fuel : nat) :
  engines_progress ->
  forall states s,
    0 <= states < tstate_steps + 2 ^ 30 ->
    (Z.to_nat (tstate_steps - states) <= fuel)%nat ->
    exists st,
      result (run_quantum fuel states s) = Some st /\
      tstate_steps <= st < tstate_steps + 2 ^ 30.
Proof.
  intros Hprog. unfold tstate_steps.
  induction fuel as [|fuel IH]; intros states s Hst Hfuel.
  - rewrite run_quantum_done by (unfold tstate_steps; lia).
    exists states. split; [reflexivity|lia].
  - destruct (Z.lt_ge_cases states 737) as [Hlt|Hge].
    + rewrite run_quantum_step by exact Hlt. cbv zeta.
      destruct (Hprog s) as [Hd He].
      destruct (Z.eqb_spec (fst (z180_dma s)) 0) as [Hz|Hnz]; cbn [result fst].
      * specialize (He Hz).
        fold (result (run_quantum fuel
                (sint32 (states + fst (Z180Execute (snd (z180_dma s)))))
                (snd (Z180Execute (snd (z180_dma s)))))).
        rewrite sint32_small by lia. apply IH; lia.
      * fold (result (run_quantum fuel (sint32 (states + fst (z180_dma s)))
                (snd (z180_dma s)))).
        rewrite sint32_small by lia. apply IH; lia.
    + rewrite run_quantum_done by exact Hge.
      exists states. split; [reflexivity|lia].
Qed.

Lemma minor_tick_completes (fuel : nat) (states : Z) (s : machine) :
  engines_progress ->
  (737 <= fuel)%nat ->
  0 <= states < 2 ^ 30 ->
  exists st,
    result (minor_tick fuel states s) = Some st /\ 0 <= st < 2 ^ 30.
Proof.
  intros Hprog Hfuel Hst. unfold minor_tick. rewrite result_bind.
  destruct (run_quantum_completes fuel Hprog states s) as (st & -> & Hrange);
    try (unfold tstate_steps; lia).
  unfold tstate_steps in Hrange.
  exists (sint32 (st - tstate_steps)). split; [reflexivity|].
  unfold tstate_steps. rewrite sint32_small; lia.
Qed.

Lemma minor_ticks_completes (n fuel : nat) :
  engines_progress ->
  (737 <= fuel)%nat ->
  forall states s,
    0 <= states < 2 ^ 30 ->
    exists st,
      result (minor_ticks n fuel states s) = Some st /\ 0 <= st < 2 ^ 30.
Proof.
  intros Hprog Hfuel. induction n as [|n IH]; intros states s Hst;
    cbn [minor_ticks].
  - exists states. now split.
  - rewrite result_bind.
    destruct (minor_tick_completes fuel states s Hprog Hfuel Hst)
      as (st & -> & Hrange).
    now apply IH.
Qed.

Lemma fdc_groups_completes (n fuel : nat) :
  engines_progress ->
  (737 <= fuel)%nat ->
  forall states s,
    0 <= states < 2 ^ 30 ->
    exists st,
      result (fdc_groups n fuel states s) = Some st /\ 0 <= st < 2 ^ 30.
Proof.
  intros Hprog Hfuel. induction n as [|n IH]; intros states s Hst;
    cbn [fdc_groups].
  - exists states. now split.
  - rewrite result_bind.
    destruct (minor_ticks_completes 10 fuel Hprog Hfuel states s Hst)
      as (st & -> & Hrange).
    rewrite result_bind. now apply IH.
Qed.

Lemma main_pass_completes (fuel : nat) (s : machine) :
  engines_progress ->
  (737 <= fuel)%nat ->
  result (main_pass fuel s) = true.
Proof.
  intros Hprog Hfuel. unfold main_pass, run_20ms.
  rewrite !result_bind.
  destruct (fdc_groups_completes 50 fuel Hprog Hfuel 0 s) as (st & -> & _);
    [lia|reflexivity].
Qed.

(** ** More on the bus *)

Ltac crunch :=
  run;
  repeat (match goal with
          | |- context [if ?c then _ else _] =>
              lazymatch c with
              | context [if _ then _ else _] => fail
              | _ => destruct c
              end
          end; cbv beta iota).

Lemma mask20_idem (a : Z) : Z.land (Z.land a 0xFFFFF) 0xFFFFF = Z.land a 0xFFFFF.
Proof. now rewrite <- Z.land_assoc. Qed.

Lemma mask18_of_mask20 (a : Z) :
  Z.land (Z.land a 0xFFFFF) 0x3FFFF = Z.land a 0x3FFFF.
Proof. now rewrite <- Z.land_assoc. Qed.

Lemma bit19_same_page (a b : Z) :
  Z.land a 0xFFFFF = Z.land b 0xFFFFF -> Z.testbit a 19 = Z.testbit b 19.
Proof.
  intros Hab. now rewrite <- (bit19_of_masked a), Hab, bit19_of_masked.
Qed.

(** X1.  The bus wraps at 1 MiB: two addresses with the same low 20 bits
    read the same byte and are written in the same way. *)
Theorem phys_bus_wraps (s : machine) (a b val : Z) :
  Z.land a 0xFFFFF = Z.land b 0xFFFFF ->
  z180_phys_read s a = z180_phys_read s b /\
  z180_phys_write a val s = z180_phys_write b val s.
Proof.
  intros Hab. pose proof (bit19_same_page a b Hab) as H19.
  rewrite !phys_read_eq, !phys_write_eq, H19, Hab.
  now rewrite <- (mask18_of_mask20 a), Hab, mask18_of_mask20.
Qed.

(** The state after a bus write. *)
Lemma phys_write_final (s : machine) (a val : Z) :
  final (z180_phys_write a val s) =
    if ram_mapped s a then set_ram (store (ram s) (Z.land a 0xFFFFF) val) s
    else s.
Proof.
  rewrite phys_write_eq. unfold ram_mapped.
  destruct (Z.testbit a 19), (Z.testbit (port_a s) 2),
    (Z.testbit (port_a s) 3); reflexivity.
Qed.

Lemma phys_read_set_ram (s : machine) (m : Z -> Z) (b : Z) :
  z180_phys_read (set_ram m s) b =
    if ram_mapped s b then m (Z.land b 0xFFFFF) else z180_phys_read s b.
Proof.
  rewrite !phys_read_eq. unfold ram_mapped. cbn [set_ram port_a ram rom].
  destruct (Z.testbit b 19), (Z.testbit (port_a s) 2),
    (Z.testbit (port_a s) 3); reflexivity.
Qed.

Lemma ram_mapped_same_page (s : machine) (a b : Z) :
  Z.land a 0xFFFFF = Z.land b 0xFFFFF -> ram_mapped s a = ram_mapped s b.
Proof. intros Hab. unfold ram_mapped. now rewrite (bit19_same_page a b Hab). Qed.

Lemma phys_read_ram_mapped (s : machine) (b : Z) :
  ram_mapped s b = true -> z180_phys_read s b = ram s (Z.land b 0xFFFFF).
Proof.
  rewrite phys_read_eq. unfold ram_mapped.
  destruct (Z.testbit b 19), (Z.testbit (port_a s) 2),
    (Z.testbit (port_a s) 3); intros Hm; try discriminate Hm; reflexivity.
Qed.

Lemma phys_read_after_write_law (s : machine) (a val b : Z) :
  z180_phys_read (final (z180_phys_write a val s)) b =
    if (Z.land b 0xFFFFF =? Z.land a 0xFFFFF) && ram_mapped s a then val
    else z180_phys_read s b.
Proof.
  rewrite phys_write_final.
  destruct (ram_mapped s a) eqn:Hma; [|now rewrite andb_false_r].
  rewrite andb_true_r, phys_read_set_ram. unfold store.
  destruct (Z.eqb_spec (Z.land b 0xFFFFF) (Z.land a 0xFFFFF)) as [Heq|Hne].
  - now rewrite (ram_mapped_same_page s b a Heq), Hma.
  - destruct (ram_mapped s b) eqn:Hmb; [|reflexivity].
    symmetry. now apply phys_read_ram_mapped.
Qed.

(** X2.  Read after write on the bus: after a write of the byte [val]
    at [a], a read at [b] returns [val] when [b] has the low 20 bits of
    [a] and the bank decode maps [a] to RAM; in every other case
    (another address, ROM, disabled extended memory) it returns what it
    returned before the write. *)
Theorem phys_read_after_write (s : machine) (a val b : Z) :
  0 <= val < 256 ->
  z180_phys_read (final (z180_phys_write a val s)) b =
    if (Z.land b 0xFFFFF =? Z.land a 0xFFFFF) && ram_mapped s a then val
    else z180_phys_read s b.
Proof. intros _. apply phys_read_after_write_law. Qed.

Lemma mem_write_final (s : machine) (addr val : Z) :
  final (mem_write addr val s)
    = final (z180_phys_write (z180_mmu_translate (ext s) addr) val s).
Proof.
  unfold mem_write, mem_write0. cbv [bind get when ret emit final].
  cbn [fst snd]. now destruct (truthy (Z.land (trace s) TRACE_MEM)).
Qed.

Lemma phys_write_keeps (s : machine) (a val : Z) :
  ext (final (z180_phys_write a val s)) = ext s /\
  rom (final (z180_phys_write a val s)) = rom s /\
  port_a (final (z180_phys_write a val s)) = port_a s /\
  rstate (final (z180_phys_write a val s)) = rstate s /\
  live_irq (final (z180_phys_write a val s)) = live_irq s.
Proof. rewrite phys_write_final. now destruct (ram_mapped s a). Qed.

(** X3.  Round trip through the CPU hooks: a byte stored with
    [mem_write] at a 16 bit virtual address is the byte the next
    [mem_read] of that address delivers exactly when the MMU sends the
    address to RAM; a store to ROM or to disabled extended memory is
    lost and the read delivers what it delivered before. *)
Theorem mem_read_after_mem_write (s : machine) (addr val : Z) :
  0 <= addr < 65536 ->
  0 <= val < 256 ->
  let pa := z180_mmu_translate (ext s) addr in
  result (mem_read addr (final (mem_write addr val s))) =
    if ram_mapped s pa then val else result (mem_read addr s).
Proof.
  intros _ _. cbv zeta. rewrite !mem_read_result, mem_write_final.
  destruct (phys_write_keeps s (z180_mmu_translate (ext s) addr) val)
    as (-> & _).
  rewrite phys_read_after_write_law, Z.eqb_refl. reflexivity.
Qed.

(** X4.  No hook of the unit writes the ROM array, and RAM is changed by
    [mem_write] only: reads, port reads, port writes and the
    recalculation block leave both arrays as they are. *)
Theorem arrays_written_by_mem_write_only (s : machine) (addr val : Z) :
  rom (final (mem_write addr val s)) = rom s /\
  (rom (final (mem_read addr s)) = rom s /\
   ram (final (mem_read addr s)) = ram s) /\
  (rom (final (io_read addr s)) = rom s /\
   ram (final (io_read addr s)) = ram s) /\
  (rom (final (io_write addr val s)) = rom s /\
   ram (final (io_write addr val s)) = ram s) /\
  (rom (final (service_recalc s)) = rom s /\
   ram (final (service_recalc s)) = ram s).
Proof.
  split; [|split; [|split; [|split]]].
  - rewrite mem_write_final.
    now destruct (phys_write_keeps s (z180_mmu_translate (ext s) addr) val)
      as (_ & -> & _).
  - rewrite mem_read_eq. cbv zeta.
    repeat match goal with
           | |- context [if ?c then _ else _] => destruct c
           end; split; reflexivity.
  - unfold io_read, my_ide_read, fdc_read, ppi_read. crunch; split; reflexivity.
  - unfold io_write, my_ide_write, fdc_write, diag_write, ppi_write,
      ppi_write_switch, ppi_recalc.
    crunch; split; reflexivity.
  - rewrite service_recalc_eq. cbv zeta.
    repeat match goal with
           | |- context [if ?c then _ else _] => destruct c
           end; split; reflexivity.
Qed.

(** X5.  [live_irq] is never set: every hook of the unit and the
    recalculation block leave a clear [live_irq] clear, and none of them
    prints the RETI trace line from such a state. *)
Theorem live_irq_stays_clear (s : machine) (addr val : Z) :
  live_irq s = 0 ->
  (live_irq (final (mem_read addr s)) = 0 /\
   count (fun e => match e with stderr_RETI => true | _ => false end)
         (output (mem_read addr s)) = 0%nat) /\
  live_irq (final (mem_write addr val s)) = 0 /\
  live_irq (final (io_read addr s)) = 0 /\
  live_irq (final (io_write addr val s)) = 0 /\
  live_irq (final (service_recalc s)) = 0.
Proof.
  intros Hclear. split; [|split; [|split; [|split]]].
  - rewrite mem_read_eq. cbv zeta. unfold mem_trace, reti_trace.
    rewrite Hclear. cbn [truthy Z.eqb negb andb].
    repeat match goal with
           | |- context [if ?c then _ else _] => destruct c
           end; split; (exact Hclear || reflexivity).
  - rewrite mem_write_final.
    destruct (phys_write_keeps s (z180_mmu_translate (ext s) addr) val)
      as (_ & _ & _ & _ & ->). exact Hclear.
  - unfold io_read, my_ide_read, fdc_read, ppi_read. crunch; exact Hclear.
  - unfold io_write, my_ide_write, fdc_write, diag_write, ppi_write,
      ppi_write_switch, ppi_recalc.
    crunch; exact Hclear.
  - rewrite service_recalc_eq. cbv zeta.
    repeat match goal with
           | |- context [if ?c then _ else _] => destruct c
           end; exact Hclear.
Qed.

(** The disassembler's read is transparent. *)
Lemma do_mem_read0_quiet (s : machine) (addr : Z) :
  do_mem_read0 addr true s =
    (z180_phys_read s (z180_mmu_translate (ext s) addr), s, []).
Proof. reflexivity. Qed.

(** X6.  A read made for the disassembler delivers the byte [mem_read]
    would deliver, prints nothing and changes nothing; in particular it
    does not move the ED 4D detector, where the same read through
    [mem_read] from detector state 1 resets it. *)
Theorem z80dis_byte_quiet_transparent (s : machine) (addr : Z) :
  z80dis_byte_quiet addr s = (result (mem_read addr s), s, []) /\
  (rstate s = 1 -> rstate (final (mem_read addr s)) <> rstate s).
Proof.
  split.
  - unfold z80dis_byte_quiet. now rewrite do_mem_read0_quiet, mem_read_result.
  - intros Hst. rewrite mem_read_rstate. cbv zeta. rewrite Hst.
    change (1 =? 0) with false. rewrite !andb_false_r.
    destruct (_ && _); discriminate.
Qed.

(** ** More on the 82C55 and the ports *)

Lemma ppi_sub_address (addr : Z) : Z.land (Z.land addr 0xFF) 3 = Z.land addr 3.
Proof. now rewrite <- Z.land_assoc. Qed.

Ltac ppi_window Hwin :=
  replace (0x10 <=? _) with true by (symmetry; apply Z.leb_le; lia);
  replace (_ <=? 0x17) with false by (symmetry; apply Z.leb_gt; lia);
  replace (0x70 <=? _) with true by (symmetry; apply Z.leb_le; lia);
  replace (0x78 <=? _) with true by (symmetry; apply Z.leb_le; lia);
  replace (_ <=? 0x7F) with true by (symmetry; apply Z.leb_le; lia).

Lemma io_read_ppi_window (s : machine) (addr : Z) :
  z180_iospace (ext s) addr = false ->
  0x78 <= Z.land addr 0xFF <= 0x7F ->
  io_read addr s =
    (result (ppi_read (Z.land addr 3) s), final (ppi_read (Z.land addr 3) s),
     io_read_trace s addr ++ output (ppi_read (Z.land addr 3) s)).
Proof.
  intros Hspace Hwin. unfold io_read, io_read_trace. run.
  destruct (truthy (Z.land (trace s) TRACE_IO)); cbv beta iota;
    rewrite Hspace, ppi_sub_address; ppi_window Hwin;
    replace (Z.land addr 0xFF <? 0x77) with false
      by (symmetry; apply Z.ltb_ge; lia);
    reflexivity.
Qed.

Lemma io_write_ppi_window (s : machine) (addr val : Z) :
  z180_iospace (ext s) addr = false ->
  0x78 <= Z.land addr 0xFF <= 0x7F ->
  io_write addr val s =
    (tt, final (ppi_write (Z.land addr 3) val s),
     io_write_trace s addr val ++ output (ppi_write (Z.land addr 3) val s)).
Proof.
  intros Hspace Hwin. unfold io_write, io_write_trace. run.
  destruct (truthy (Z.land (trace s) TRACE_IO)); cbv beta iota;
    rewrite Hspace, ppi_sub_address; ppi_window Hwin;
    replace (Z.land addr 0xFF <? 0x78) with false
      by (symmetry; apply Z.ltb_ge; lia);
    cbn [andb]; destruct (ppi_write (Z.land addr 3) val s) as [[[] s'] evs];
    reflexivity.
Qed.

Lemma ppi_read_eq (s : machine) (addr : Z) :
  0 <= addr <= 3 ->
  ppi_read addr s =
    (if addr =? 0 then if Z.testbit (port_ctl s) 4 then 0xFF else port_a s
     else if addr =? 1 then if Z.testbit (port_ctl s) 1 then 0xFF else port_b s
     else if addr =? 2 then
       Z.lor (if Z.testbit (port_ctl s) 0 then 0x0F else Z.land (port_c s) 0x0F)
             (if Z.testbit (port_ctl s) 3 then 0xF0 else Z.land (port_c s) 0xF0)
     else port_ctl s,
     s, []).
Proof.
  intros Haddr. unfold ppi_read. run.
  rewrite <- (truthy_land_pow2 (port_ctl s) 4), <- (truthy_land_pow2 (port_ctl s) 1),
    <- (truthy_land_pow2 (port_ctl s) 0), <- (truthy_land_pow2 (port_ctl s) 3) by lia.
  change (2 ^ 4) with 0x10. change (2 ^ 1) with 0x02.
  change (2 ^ 0) with 0x01. change (2 ^ 3) with 0x08.
  destruct (Z.eqb_spec addr 0); [reflexivity|].
  destruct (Z.eqb_spec addr 1); [reflexivity|].
  destruct (Z.eqb_spec addr 2);
    [now destruct (truthy (Z.land (port_ctl s) 0x08))|].
  destruct (Z.eqb_spec addr 3); [reflexivity|lia].
Qed.

Lemma ppi_write_switch_data (s : machine) (addr v : Z) :
  final (ppi_write_switch addr v s) =
    if addr =? 0 then set_port_a v s
    else if addr =? 1 then set_port_b v s
    else if addr =? 2 then set_port_c v s
    else final (ppi_write_switch addr v s).
Proof.
  unfold ppi_write_switch. run.
  repeat match goal with
         | |- context [if ?c then _ else _] => destruct c
         end; reflexivity.
Qed.

(** X7.  Read back of the 82C55 latches, for a byte [v]: written to
    port A or B, [v] is read back when the control register makes the
    port an output (bit 4, resp. bit 1, clear) and the read is 0xFF
    when the port is an input; the control register reads back a mode
    word and ignores a bit set/reset command. *)
Theorem ppi_read_back (s : machine) (v : Z) :
  0 <= v < 256 ->
  result (ppi_read 0 (final (ppi_write 0 v s)))
    = (if Z.testbit (port_ctl s) 4 then 0xFF else v) /\
  result (ppi_read 1 (final (ppi_write 1 v s)))
    = (if Z.testbit (port_ctl s) 1 then 0xFF else v) /\
  result (ppi_read 3 (final (ppi_write 3 v s)))
    = (if Z.testbit v 7 then v else port_ctl s).
Proof.
  intros _. rewrite !ppi_read_eq by lia. cbn [result fst Z.eqb Pos.eqb].
  rewrite !ppi_write_final.
  destruct (ppi_recalc_ports (final (ppi_write_switch 0 v s)))
    as (-> & _ & _ & ->).
  destruct (ppi_recalc_ports (final (ppi_write_switch 1 v s)))
    as (_ & -> & _ & ->).
  destruct (ppi_recalc_ports (final (ppi_write_switch 3 v s)))
    as (_ & _ & _ & ->).
  rewrite (ppi_write_switch_data s 0), (ppi_write_switch_data s 1),
    ppi_write_switch_control.
  cbn [Z.eqb Pos.eqb set_port_a set_port_b port_a port_b port_ctl].
  repeat split. now destruct (Z.testbit v 7).
Qed.

Lemma testbit_low_nibble (j : Z) : 0 <= j -> Z.testbit 0x0F j = (j <? 4).
Proof. intros Hj. change 0x0F with (Z.ones 4). apply Z.testbit_ones_nonneg; lia. Qed.

Lemma testbit_high_nibble (j : Z) :
  0 <= j -> Z.testbit 0xF0 j = (4 <=? j) && (j <? 8).
Proof.
  intros Hj. change 0xF0 with (Z.lxor (Z.ones 8) (Z.ones 4)).
  rewrite Z.lxor_spec, !Z.testbit_ones_nonneg by lia.
  destruct (Z.ltb_spec j 8), (Z.ltb_spec j 4), (Z.leb_spec 4 j);
    try reflexivity; lia.
Qed.

(** X8.  What a read of port C returns, bit by bit: a bit of the low
    nibble is 1 when the low nibble is an input (control bit 0) and the
    latched bit otherwise; a bit of the high nibble is 1 when the high
    nibble is an input (control bit 3) and the latched bit otherwise;
    the state is not changed. *)
Theorem ppi_read_port_c (s : machine) (j : Z) :
  0 <= j < 8 ->
  Z.testbit (result (ppi_read 2 s)) j =
    (if j <? 4 then Z.testbit (port_ctl s) 0 || Z.testbit (port_c s) j
     else Z.testbit (port_ctl s) 3 || Z.testbit (port_c s) j) /\
  final (ppi_read 2 s) = s.
Proof.
  intros Hj. rewrite ppi_read_eq by lia. cbn [result final fst snd Z.eqb Pos.eqb].
  split; [|reflexivity].
  rewrite Z.lor_spec.
  assert (Hlo : forall b : bool,
             Z.testbit (if b then 0x0F else Z.land (port_c s) 0x0F) j
             = (j <? 4) && (b || Z.testbit (port_c s) j)).
  { intros []; rewrite ?Z.land_spec, testbit_low_nibble by lia;
      destruct (j <? 4), (Z.testbit (port_c s) j); reflexivity. }
  assert (Hhi : forall b : bool,
             Z.testbit (if b then 0xF0 else Z.land (port_c s) 0xF0) j
             = negb (j <? 4) && (b || Z.testbit (port_c s) j)).
  { intros []; rewrite ?Z.land_spec, testbit_high_nibble by lia;
      destruct (Z.ltb_spec j 4), (Z.leb_spec 4 j), (Z.ltb_spec j 8),
        (Z.testbit (port_c s) j); try reflexivity; lia. }
  rewrite Hlo, Hhi.
  destruct (j <? 4), (Z.testbit (port_ctl s) 0), (Z.testbit (port_ctl s) 3),
    (Z.testbit (port_c s) j); reflexivity.
Qed.

(** X9.  The eight ports 0x78..0x7F decode only the two low address
    bits: two ports of the window with the same two low bits address
    the same register, for reads and for writes. *)
Theorem ppi_window_mirrors (s : machine) (p q val : Z) :
  z180_iospace (ext s) p = false ->
  z180_iospace (ext s) q = false ->
  0x78 <= Z.land p 0xFF <= 0x7F ->
  0x78 <= Z.land q 0xFF <= 0x7F ->
  Z.land p 3 = Z.land q 3 ->
  result (io_read p s) = result (io_read q s) /\
  final (io_read p s) = final (io_read q s) /\
  final (io_write p val s) = final (io_write q val s).
Proof.
  intros Hp Hq Hwp Hwq Hsame.
  rewrite !io_read_ppi_window, !io_write_ppi_window by assumption.
  rewrite Hsame. repeat split.
Qed.

Lemma bit_set_reset_range (pc v : Z) : 0 <= bit_set_reset pc v < 256.
Proof.
  unfold bit_set_reset. cbv zeta.
  destruct (Z.testbit v 0); unfold u8; apply Z.mod_pos_bound; reflexivity.
Qed.

Lemma bit_set_reset_testbit (pc v j : Z) :
  0 <= pc < 256 -> 0 <= j ->
  Z.testbit (bit_set_reset pc v) j =
    if j =? Z.land (Z.shiftr v 1) 7 then Z.testbit v 0 else Z.testbit pc j.
Proof.
  intros Hpc Hj. unfold bit_set_reset.
  apply (set_reset_bit pc (Z.land (Z.shiftr v 1) 7) j (Z.testbit v 0));
    auto using bit_index_range.
Qed.

Lemma ppi_write_bit_command (s : machine) (v : Z) :
  Z.testbit v 7 = false ->
  port_c (final (ppi_write 3 v s)) = bit_set_reset (port_c s) v.
Proof.
  intros Hcmd. rewrite ppi_write_final.
  destruct (ppi_recalc_ports (final (ppi_write_switch 3 v s)))
    as (_ & _ & -> & _).
  rewrite ppi_write_switch_control, Hcmd. reflexivity.
Qed.

(** X10.  Bit set/reset commands compose bit by bit: two commands on
    different bits of port C can be issued in either order, and of two
    commands on the same bit the second one decides. *)
Theorem bit_commands_compose (s : machine) (v w : Z) :
  0 <= port_c s < 256 ->
  Z.testbit v 7 = false ->
  Z.testbit w 7 = false ->
  let i := Z.land (Z.shiftr v 1) 7 in
  let k := Z.land (Z.shiftr w 1) 7 in
  (i <> k ->
   port_c (final (ppi_write 3 w (final (ppi_write 3 v s))))
     = port_c (final (ppi_write 3 v (final (ppi_write 3 w s))))) /\
  (i = k ->
   port_c (final (ppi_write 3 w (final (ppi_write 3 v s))))
     = port_c (final (ppi_write 3 w s))).
Proof.
  intros Hpc Hv Hw i k.
  rewrite !ppi_write_bit_command by assumption.
  split; intros Hik; apply Z.bits_inj'; intros j Hj;
    rewrite !bit_set_reset_testbit by (auto using bit_set_reset_range);
    fold i k.
  - destruct (Z.eqb_spec j i), (Z.eqb_spec j k); try reflexivity. congruence.
  - rewrite Hik. now destruct (j =? k).
Qed.

(** *** Chip select over a run of port writes *)

(** A port write, seen from the chip select: it is a write to the
    82C55, or it makes no chip-select call and leaves port C, the cache
    and the card alone. *)
Lemma io_write_cs_cases (s : machine) (addr val : Z) :
  (final (io_write addr val s)
     = final (ppi_write (Z.land (Z.land addr 0xFF) 3) val s) /\
   cs_events (output (io_write addr val s))
     = cs_events (output (ppi_write (Z.land (Z.land addr 0xFF) 3) val s))) \/
  (port_c (final (io_write addr val s)) = port_c s /\
   old_cs (final (io_write addr val s)) = old_cs s /\
   sdcard (final (io_write addr val s)) = sdcard s /\
   cs_events (output (io_write addr val s)) = []).
Proof.
  unfold io_write, my_ide_write, fdc_write, diag_write. crunch;
    solve [left; split; reflexivity | right; repeat split].
Qed.

Lemma cs_alternates_filter (evs : list event) :
  forall sel, cs_alternates sel evs = cs_alternates sel (cs_events evs).
Proof.
  induction evs as [|e evs IH]; intros sel; [reflexivity|].
  destruct e; cbn [cs_events filter is_cs_event cs_alternates];
    try apply IH; fold (cs_events evs); now rewrite IH.
Qed.

Lemma cs_events_app (l1 l2 : list event) :
  cs_events (l1 ++ l2) = cs_events l1 ++ cs_events l2.
Proof. apply filter_app. Qed.

(** One port write keeps the alternation going. *)
Lemma io_write_cs_step (s : machine) (addr val : Z) (rest : list event) :
  sdcard s = true -> cs_coherent s ->
  sdcard (final (io_write addr val s)) = true /\
  cs_coherent (final (io_write addr val s)) /\
  cs_alternates (old_cs s =? 0)
      (cs_events (output (io_write addr val s)) ++ rest)
    = cs_alternates (old_cs (final (io_write addr val s)) =? 0) rest.
Proof.
  intros Hsd Hcoh.
  destruct (cs_coherent_io_write s addr val Hsd Hcoh) as [Hsd' Hcoh'].
  split; [exact Hsd'|split; [exact Hcoh'|]].
  destruct (io_write_cs_cases s addr val) as [[Hfin Hev]|(_ & Ho & _ & Hev)].
  - rewrite Hev, Hfin.
    destruct (ppi_write_chip_select s (Z.land (Z.land addr 0xFF) 3) val Hsd Hcoh)
      as [-> ->].
    unfold cs_coherent in Hcoh. rewrite Hcoh.
    set (new := Z.land (port_c (final (ppi_write _ val s))) 7).
    set (old := Z.land (port_c s) 7).
    destruct (Z.eqb_spec new old) as [->|Hne]; [reflexivity|].
    destruct (Z.eqb_spec old 0) as [Hold|Hold].
    + destruct (Z.eqb_spec new 0); [congruence|reflexivity].
    + destruct (Z.eqb_spec new 0); reflexivity.
  - now rewrite Hev, Ho.
Qed.

(** X11.  With a card attached and the cache coherent, the chip-select
    calls made by any run of port writes alternate: [sd_spi_lower_cs]
    is called only while the card is not selected and
    [sd_spi_raise_cs] only while it is, so the card never sees two
    lowers or two raises in a row. *)
Theorem chip_select_alternates (ws : list (Z * Z)) :
  forall s : machine,
    sdcard s = true -> cs_coherent s ->
    cs_alternates (old_cs s =? 0) (output (io_writes ws s)) = true.
Proof.
  induction ws as [|[addr val] ws IH]; intros s Hsd Hcoh; [reflexivity|].
  cbn [io_writes]. rewrite output_bind, cs_alternates_filter, cs_events_app.
  destruct (io_write_cs_step s addr val
              (cs_events (output (io_writes ws (final (io_write addr val s)))))
              Hsd Hcoh) as (Hsd' & Hcoh' & ->).
  rewrite <- cs_alternates_filter. now apply IH.
Qed.

(** X12.  Without a card no run of port writes makes a chip-select
    call, and the cached select keeps its value whatever is written to
    port C. *)
Theorem no_card_no_chip_select (ws : list (Z * Z)) :
  forall s : machine,
    sdcard s = false ->
    cs_events (output (io_writes ws s)) = [] /\
    old_cs (final (io_writes ws s)) = old_cs s.
Proof.
  induction ws as [|[addr val] ws IH]; intros s Hsd; [now split|].
  cbn [io_writes]. rewrite output_bind, final_bind, cs_events_app.
  assert (Hstep : sdcard (final (io_write addr val s)) = false /\
                  old_cs (final (io_write addr val s)) = old_cs s /\
                  cs_events (output (io_write addr val s)) = []).
  { destruct (io_write_cs_cases s addr val) as [[Hfin Hev]|(_ & Ho & Hs & Hev)].
    - rewrite Hev, Hfin, ppi_write_output, cs_events_app, ppi_write_final.
      destruct (ppi_write_switch_keeps s (Z.land (Z.land addr 0xFF) 3) val)
        as (Hs & Ho & ->).
      rewrite ppi_recalc_eq. cbv zeta. rewrite Hs, Hsd.
      cbn [andb final output fst snd]. now rewrite Hs, Ho, Hsd.
    - now rewrite Hs, Ho, Hev, Hsd. }
  destruct Hstep as (Hsd' & Ho & ->).
  destruct (IH (final (io_write addr val s)) Hsd') as [-> ->].
  now split.
Qed.

(** *** Ports outside the windows *)

(** X13.  A port that the internal I/O block does not claim and whose
    low byte is outside the decoded windows reads as 0xFF without any
    effect; this covers the IDE window when no IDE device is configured
    and the write-only ports 0x0D, 0xFD and 0xFE.  A write to such a
    port, other than to those three, changes nothing. *)
Theorem undecoded_ports (s : machine) (p val : Z) :
  z180_iospace (ext s) p = false ->
  let b := Z.land p 0xFF in
  (ide s <> 1 \/ b < 0x10 \/ 0x17 < b) ->
  (b < 0x70 \/ 0x7F < b) ->
  io_read p s = (0xFF, s, io_read_trace s p ++ unknown_read_trace s b) /\
  (b <> 0x0D -> b <> 0xFD -> b <> 0xFE -> final (io_write p val s) = s).
Proof.
  intros Hspace b Hide Hwin.
  assert (Hidew : (0x10 <=? b) && (b <=? 0x17) && (ide s =? 1) = false).
  { destruct (Z.leb_spec 0x10 b), (Z.leb_spec b 0x17), (Z.eqb_spec (ide s) 1);
      try reflexivity. lia. }
  assert (Hfr : (0x70 <=? b) && (b <? 0x77) = false).
  { destruct (Z.leb_spec 0x70 b), (Z.ltb_spec b 0x77); try reflexivity. lia. }
  assert (Hfw : (0x70 <=? b) && (b <? 0x78) = false).
  { destruct (Z.leb_spec 0x70 b), (Z.ltb_spec b 0x78); try reflexivity. lia. }
  assert (Hppi : (0x78 <=? b) && (b <=? 0x7F) = false).
  { destruct (Z.leb_spec 0x78 b), (Z.leb_spec b 0x7F); try reflexivity. lia. }
  split.
  - unfold io_read, io_read_trace, unknown_read_trace. run. fold b.
    destruct (truthy (Z.land (trace s) TRACE_IO)); cbv beta iota;
      rewrite Hspace, Hidew, Hfr, Hppi;
      destruct (truthy (Z.land (trace s) TRACE_UNK)); reflexivity.
  - intros Hd Hlo Hhi. unfold io_write. run. fold b.
    destruct (truthy (Z.land (trace s) TRACE_IO)); cbv beta iota;
      rewrite Hspace, Hidew, Hfw, Hppi;
      destruct (Z.eqb_spec b 0x0D); try contradiction;
      destruct (Z.eqb_spec b 0xFD); try contradiction;
      destruct (Z.eqb_spec b 0xFE); try contradiction;
      destruct (truthy (Z.land (trace s) TRACE_UNK)); reflexivity.
Qed.

(** *** The trace ports *)

Lemma io_write_trace_low (s : machine) (p val : Z) :
  z180_iospace (ext s) p = false ->
  Z.land p 0xFF = 0xFD ->
  final (io_write p val s)
    = set_trace (Z.lor (Z.land (trace s) 0xFF00) val) s.
Proof.
  intros Hspace Hp. unfold io_write. run.
  destruct (truthy (Z.land (trace s) TRACE_IO)); cbv beta iota;
    rewrite Hspace, Hp; reflexivity.
Qed.

Lemma io_write_trace_high (s : machine) (p val : Z) :
  z180_iospace (ext s) p = false ->
  Z.land p 0xFF = 0xFE ->
  final (io_write p val s)
    = set_trace (Z.lor (Z.land (trace s) 0xFF) (Z.shiftl val 8)) s.
Proof.
  intros Hspace Hp. unfold io_write. run.
  destruct (truthy (Z.land (trace s) TRACE_IO)); cbv beta iota;
    rewrite Hspace, Hp; reflexivity.
Qed.

Lemma land_byte (v : Z) : 0 <= v < 256 -> Z.land v 0xFF = v.
Proof.
  intros Hv. change 0xFF with (Z.ones 8). rewrite Z.land_ones by lia.
  now apply Z.mod_small.
Qed.

(** X14.  The two trace ports together set the whole trace word: after
    a write of [lo] to port 0xFD and of [hi] to port 0xFE, in either
    order, [trace] is [hi << 8 | lo], whatever it was before; bits 16
    and up of an earlier value do not survive. *)
Theorem trace_ports_set_word (s : machine) (p q lo hi : Z) :
  z180_iospace (ext s) p = false ->
  z180_iospace (ext s) q = false ->
  Z.land p 0xFF = 0xFD ->
  Z.land q 0xFF = 0xFE ->
  0 <= lo < 256 ->
  0 <= hi < 256 ->
  trace (final (io_write q hi (final (io_write p lo s))))
    = Z.lor (Z.shiftl hi 8) lo /\
  trace (final (io_write p lo (final (io_write q hi s))))
    = Z.lor (Z.shiftl hi 8) lo.
Proof.
  intros Hp Hq Hlo Hhi Hl Hh.
  rewrite (io_write_trace_low s p lo Hp Hlo), (io_write_trace_high s q hi Hq Hhi).
  rewrite io_write_trace_high, io_write_trace_low by assumption.
  cbn [trace set_trace]. split.
  - rewrite Z.land_lor_distr_l, <- Z.land_assoc.
    change (Z.land 0xFF00 0xFF) with 0.
    rewrite Z.land_0_r, Z.lor_0_l, (land_byte lo Hl). apply Z.lor_comm.
  - rewrite Z.land_lor_distr_l, <- Z.land_assoc.
    change (Z.land 0xFF 0xFF00) with 0. rewrite Z.land_0_r, Z.lor_0_l.
    change 0xFF00 with (Z.shiftl 0xFF 8).
    now rewrite <- Z.shiftl_land, (land_byte hi Hh).
Qed.

(** *** The floppy registers, seen from the ports *)

(** X15.  Only two floppy registers can be read: ports 0x70 and 0x71
    return what the controller returns for its status and data
    registers, and ports 0x72..0x76 return 0x78 without a call of the
    controller and without any change of state. *)
Theorem fdc_ports_read (s : machine) (p : Z) :
  z180_iospace (ext s) p = false ->
  0x70 <= Z.land p 0xFF < 0x77 ->
  (Z.land p 7 = 0 -> result (io_read p s) = fst (fdc_read_ctrl (ext s))) /\
  (Z.land p 7 = 1 -> result (io_read p s) = fst (fdc_read_data (ext s))) /\
  (2 <= Z.land p 7 ->
   result (io_read p s) = 0x78 /\ final (io_read p s) = s).
Proof.
  intros Hspace Hwin. rewrite io_read_fdc_window by assumption.
  cbn [result final fst snd]. repeat split.
  - intros ->. reflexivity.
  - intros ->. reflexivity.
  - rewrite fdc_read_bogus by lia. reflexivity.
  - rewrite fdc_read_bogus by lia. reflexivity.
Qed.

(** *** Bank switching through port A *)

Lemma ppi_write_port_a (s : machine) (v : Z) :
  port_a (final (ppi_write 0 v s)) = v /\
  ram (final (ppi_write 0 v s)) = ram s /\
  rom (final (ppi_write 0 v s)) = rom s.
Proof.
  unfold ppi_write, ppi_write_switch, ppi_recalc. run. cbn [Z.eqb].
  crunch; repeat split.
Qed.

(** X16.  A write to port A (port 0x78 or its mirror 0x7C) switches the
    banks for the very next bus access, whatever the direction bits of
    the control register say: afterwards the base half reads ROM or RAM
    by bit 3 of the value written and the extended half reads RAM or
    0xFF by bit 2, from unchanged arrays. *)
Theorem port_a_write_switches_banks (s : machine) (p v a : Z) :
  z180_iospace (ext s) p = false ->
  Z.land p 0xFF = 0x78 \/ Z.land p 0xFF = 0x7C ->
  z180_phys_read (final (io_write p v s)) a =
    if Z.testbit a 19 then
      if Z.testbit v 2 then ram s (Z.land a 0xFFFFF) else 0xFF
    else if Z.testbit v 3 then rom s (Z.land a 0x3FFFF)
    else ram s (Z.land a 0xFFFFF).
Proof.
  intros Hspace Hp.
  assert (Hsub : Z.land p 3 = 0).
  { rewrite <- ppi_sub_address. now destruct Hp as [-> | ->]. }
  rewrite io_write_ppi_window by (destruct Hp as [Hp|Hp]; rewrite ?Hp; auto; lia).
  cbn [final fst snd]. rewrite Hsub, phys_read_eq.
  destruct (ppi_write_port_a s v) as (-> & -> & ->). reflexivity.
Qed.

(** ** More on the detector *)

(** X17.  When the RETI event runs: a memory read runs it once exactly
    when it delivers 4D while the detector is in state 1, and not at all
    otherwise; no read runs it twice. *)
Theorem reti_exactly_in_state_1 (s : machine) (addr : Z) :
  reti_events (output (mem_read addr s)) =
    if (result (mem_read addr s) =? 0x4D) && (rstate s =? 1)
    then 1%nat else 0%nat.
Proof.
  destruct (Z.eqb_spec (result (mem_read addr s)) 0x4D) as [Hr|Hr];
    destruct (Z.eqb_spec (rstate s) 1) as [Hst|Hst]; cbn [andb].
  - exact (proj1 (mem_read_4D_in_state_1 s addr Hst Hr)).
  - apply mem_read_quiet. now left.
  - apply mem_read_quiet. now right.
  - apply mem_read_quiet. now left.
Qed.

(** X18.  A prefix blocks the detection: after an opcode fetch of DD,
    FD or CB, an ED and a 4D delivered by the next two reads run no
    RETI event, whether they are opcode fetches or not. *)
Theorem prefix_blocks_reti (s0 s1 s2 : machine) (a0 a1 a2 : Z) :
  truthy (cpu_M1 (ext s0)) = true ->
  is_prefix (result (mem_read a0 s0)) = true ->
  rstate s1 = rstate (final (mem_read a0 s0)) ->
  result (mem_read a1 s1) = 0xED ->
  rstate s2 = rstate (final (mem_read a1 s1)) ->
  rstate s1 = 2 /\
  reti_events (output (mem_read a0 s0)) = 0%nat /\
  reti_events (output (mem_read a1 s1)) = 0%nat /\
  reti_events (output (mem_read a2 s2)) = 0%nat.
Proof.
  intros Hm1 Hpre H1' Hed H2'.
  assert (Hst1 : rstate s1 = 2).
  { rewrite H1', mem_read_rstate. cbv zeta. now rewrite Hm1, Hpre. }
  assert (Hst2 : rstate s2 = 0).
  { rewrite H2', mem_read_rstate. cbv zeta. rewrite Hed, Hst1.
    change (is_prefix 0xED) with false. change (2 =? 0) with false.
    now rewrite !andb_false_r. }
  split; [exact Hst1|split; [|split]]; apply mem_read_quiet.
  - right. intros H4d. rewrite H4d in Hpre. discriminate Hpre.
  - left. rewrite Hst1. discriminate.
  - left. rewrite Hst2. discriminate.
Qed.

(** ** More on the main loop *)

Lemma tick_pattern_app (l1 l2 : list event) :
  tick_pattern (l1 ++ l2) = tick_pattern l1 ++ tick_pattern l2.
Proof. unfold tick_pattern. now rewrite filter_app, map_app. Qed.

Lemma tick_pattern_bind {A B : Type} (m : M A) (k : A -> M B) (s : machine) :
  tick_pattern (output (bind m k s))
    = tick_pattern (output (m s))
      ++ tick_pattern (output (k (result (m s)) (final (m s)))).
Proof. now rewrite output_bind, tick_pattern_app. Qed.

Lemma minor_tick_eq (fuel : nat) (states : Z) (s : machine) :
  minor_tick fuel states s =
    match result (run_quantum fuel states s) with
    | Some st =>
        (Some (sint32 (st - tstate_steps)),
         z180_event (final (run_quantum fuel states s)) st,
         output (run_quantum fuel states s) ++ [call_z180_event st])
    | None =>
        (None, final (run_quantum fuel states s),
         output (run_quantum fuel states s))
    end.
Proof.
  unfold minor_tick. cbv [bind ret result final output]. cbn [fst snd].
  destruct (run_quantum fuel states s) as [[[st|] s'] evs]; cbn [fst snd];
    now rewrite ?app_nil_r.
Qed.

(** Counting through the loops, for events that the inner loop does not
    produce and that are neither ticks. *)
Lemma fdc_groups_count (p : event -> bool) :
  (forall fuel states s, count p (output (run_quantum fuel states s)) = 0%nat) ->
  (forall st, p (call_z180_event st) = false) ->
  p call_fdc_tick = false ->
  forall n fuel states s,
    count p (output (fdc_groups n fuel states s)) = 0%nat.
Proof.
  intros Hq Hev Hfdc.
  assert (Htick : forall fuel states s,
             count p (output (minor_tick fuel states s)) = 0%nat).
  { intros fuel states s. rewrite minor_tick_eq.
    destruct (result (run_quantum fuel states s)); cbn [output snd];
      rewrite ?count_app, Hq; [|reflexivity].
    unfold count. cbn [filter]. now rewrite Hev. }
  assert (Hticks : forall n fuel states s,
             count p (output (minor_ticks n fuel states s)) = 0%nat).
  { induction n as [|n IH]; intros fuel states s; cbn [minor_ticks];
      [reflexivity|].
    rewrite count_bind, Htick.
    destruct (result (minor_tick fuel states s)); [apply IH|reflexivity]. }
  induction n as [|n IH]; intros fuel states s; cbn [fdc_groups];
    [reflexivity|].
  rewrite count_bind, Hticks.
  destruct (result (minor_ticks 10 fuel states s)); [|reflexivity].
  rewrite count_bind, IH. unfold count. cbn [output snd device filter].
  now rewrite Hfdc.
Qed.

Lemma run_quantum_tick_pattern (fuel : nat) :
  forall states s, tick_pattern (output (run_quantum fuel states s)) = [].
Proof.
  induction fuel as [|fuel IH]; intros states s;
    destruct (Z.lt_ge_cases states tstate_steps) as [Hlt|Hge];
    try (now rewrite run_quantum_done by assumption).
  - now rewrite run_quantum_out_of_fuel by assumption.
  - rewrite run_quantum_step by assumption. cbv zeta.
    destruct (fst (z180_dma s) =? 0); cbn [output snd]; apply IH.
Qed.

Lemma minor_ticks_tick_pattern (n fuel : nat) :
  forall states s,
    result (minor_ticks n fuel states s) <> None ->
    tick_pattern (output (minor_ticks n fuel states s)) = repeat false n.
Proof.
  induction n as [|n IH]; intros states s; cbn [minor_ticks]; [reflexivity|].
  rewrite result_bind, tick_pattern_bind, minor_tick_eq.
  destruct (result (run_quantum fuel states s)) as [st|];
    cbn [result final output fst snd]; [|intros Hr; now contradiction Hr].
  intros Hr. rewrite tick_pattern_app, run_quantum_tick_pattern.
  cbn [app repeat]. change (tick_pattern [call_z180_event st]) with [false].
  cbn [app]. f_equal. now apply IH.
Qed.

Lemma fdc_groups_tick_pattern (n fuel : nat) :
  forall states s,
    result (fdc_groups n fuel states s) <> None ->
    tick_pattern (output (fdc_groups n fuel states s))
      = concat (repeat (repeat false 10 ++ [true]) n).
Proof.
  induction n as [|n IH]; intros states s; cbn [fdc_groups]; [reflexivity|].
  rewrite result_bind, tick_pattern_bind.
  pose proof (minor_ticks_tick_pattern 10 fuel states s) as Hten.
  destruct (result (minor_ticks 10 fuel states s)) as [st|];
    [|intros Hr; now contradiction Hr].
  rewrite Hten by discriminate.
  rewrite result_bind, tick_pattern_bind. intros Hr.
  cbn [repeat concat]. rewrite <- app_assoc. f_equal.
  change (tick_pattern (output (device call_fdc_tick fdc_tick
            (final (minor_ticks 10 fuel states s))))) with [true].
  f_equal. now apply IH.
Qed.

Lemma run_20ms_eq (fuel : nat) (s : machine) :
  let g := fdc_groups 50 fuel 0 s in
  run_20ms fuel s =
    match result g with
    | Some st =>
        (Some st, final g,
         output g ++ if truthy (fast (final g)) then [] else [call_nanosleep])
    | None => (None, final g, output g)
    end.
Proof.
  cbv zeta. unfold run_20ms. cbv [bind ret get when emit result final output].
  cbn [fst snd].
  destruct (fdc_groups 50 fuel 0 s) as [[[st|] s'] evs]; cbn [fst snd];
    [|now rewrite app_nil_r].
  destruct (truthy (fast s')); cbn [negb fst snd app]; now rewrite ?app_nil_r.
Qed.

Lemma main_pass_eq (fuel : nat) (s : machine) :
  let r := run_20ms fuel s in
  main_pass fuel s =
    match result r with
    | Some _ =>
        (true, final (service_recalc (final r)),
         output r ++ output (service_recalc (final r)))
    | None => (false, final r, output r)
    end.
Proof.
  cbv zeta. unfold main_pass. cbv [bind ret result final output].
  cbn [fst snd].
  destruct (run_20ms fuel s) as [[[st|] s'] evs]; cbn [fst snd];
    now rewrite ?app_nil_r.
Qed.

Lemma service_recalc_output (s : machine) :
  output (service_recalc s) = [] \/
  output (service_recalc s) = [call_z180_interrupt].
Proof.
  rewrite service_recalc_eq. cbv zeta.
  destruct (truthy (int_recalc s)); [|now left].
  cbn [output snd]. destruct (truthy (live_irq s)); [now left|now right].
Qed.

(** X19.  The three time scales of a pass: in the output of a pass that
    completes, the calls of [z180_event] and [fdc_tick] come as fifty
    groups of ten [z180_event] followed by one [fdc_tick], and
    [nanosleep] is called once when [fast] is clear at the end of the
    ticks and not at all when it is set. *)
Theorem pass_time_scales (fuel : nat) (s : machine) :
  result (main_pass fuel s) = true ->
  tick_pattern (output (main_pass fuel s))
    = concat (repeat (repeat false 10 ++ [true]) 50) /\
  count is_sleep (output (main_pass fuel s))
    = (if truthy (fast (final (fdc_groups 50 fuel 0 s))) then 0%nat else 1%nat).
Proof.
  rewrite main_pass_eq, run_20ms_eq. cbv zeta.
  pose proof (fdc_groups_tick_pattern 50 fuel 0 s) as Hpat.
  assert (Hsl : count is_sleep (output (fdc_groups 50 fuel 0 s)) = 0%nat).
  { apply fdc_groups_count; try reflexivity.
    intros. apply run_quantum_count. now intros []. }
  destruct (result (fdc_groups 50 fuel 0 s)) as [st|];
    cbn [result final output fst snd]; [intros _|discriminate].
  rewrite !tick_pattern_app, !count_app, Hsl, Hpat by discriminate.
  set (s1 := final (fdc_groups 50 fuel 0 s)).
  destruct (service_recalc_output s1) as [-> | ->];
    destruct (truthy (fast s1)); cbn [tick_pattern filter map app];
    rewrite ?app_nil_r; split; reflexivity.
Qed.

(** *** Cycle accounting *)

Lemma used_total_app (l1 l2 : list event) :
  used_total (l1 ++ l2) = used_total l1 + used_total l2.
Proof.
  induction l1 as [|e l1 IH]; [reflexivity|].
  destruct e; cbn [app used_total]; lia.
Qed.

Lemma triple_result {A : Type} (a : A) (s : machine) (evs : list event) :
  result (a, s, evs) = a.
Proof. reflexivity. Qed.

Lemma triple_output {A : Type} (a : A) (s : machine) (evs : list event) :
  output (a, s, evs) = evs.
Proof. reflexivity. Qed.

Lemma triple_final {A : Type} (a : A) (s : machine) (evs : list event) :
  final (a, s, evs) = s.
Proof. reflexivity. Qed.

(** The inner loop adds what the engines report to [states]. *)
Lemma run_quantum_conserves (fuel : nat) :
  engines_progress ->
  forall states s st,
    0 <= states < tstate_steps + 2 ^ 30 ->
    result (run_quantum fuel states s) = Some st ->
    st = states + used_total (output (run_quantum fuel states s)).
Proof.
  intros Hprog. unfold tstate_steps.
  induction fuel as [|fuel IH]; intros states s st Hst;
    destruct (Z.lt_ge_cases states 737) as [Hlt|Hge];
    try (rewrite run_quantum_done by exact Hge;
         rewrite triple_result, triple_output; cbn [used_total];
         intros Hr; injection Hr as <-; lia).
  - rewrite run_quantum_out_of_fuel by exact Hlt. discriminate.
  - rewrite run_quantum_step by exact Hlt. cbv zeta.
    destruct (Hprog s) as [Hd He].
    destruct (Z.eqb_spec (fst (z180_dma s)) 0) as [Hz|Hnz];
      rewrite triple_result, triple_output; cbn [used_total]; intros Hr.
    + specialize (He Hz). rewrite sint32_small in Hr |- * by lia.
      apply IH in Hr; [lia|lia].
    + rewrite sint32_small in Hr |- * by lia.
      apply IH in Hr; [lia|lia].
Qed.

Lemma minor_tick_conserves (fuel : nat) (states : Z) (s : machine) :
  engines_progress ->
  (737 <= fuel)%nat ->
  0 <= states < 2 ^ 30 ->
  exists carry,
    result (minor_tick fuel states s) = Some carry /\
    0 <= carry < 2 ^ 30 /\
    states + used_total (output (minor_tick fuel states s))
      = carry + tstate_steps.
Proof.
  intros Hprog Hfuel Hst.
  destruct (run_quantum_completes fuel Hprog states s) as (st & Hres & Hrange);
    try (unfold tstate_steps; lia).
  pose proof (run_quantum_conserves fuel Hprog states s st
                ltac:(unfold tstate_steps; lia) Hres) as Hsum.
  rewrite minor_tick_eq, Hres, triple_result, triple_output, used_total_app.
  unfold tstate_steps in *. cbn [used_total].
  exists (sint32 (st - 737)). rewrite sint32_small by lia.
  split; [reflexivity|lia].
Qed.

Lemma minor_ticks_conserves (n fuel : nat) :
  engines_progress ->
  (737 <= fuel)%nat ->
  forall states s,
    0 <= states < 2 ^ 30 ->
    exists carry,
      result (minor_ticks n fuel states s) = Some carry /\
      0 <= carry < 2 ^ 30 /\
      states + used_total (output (minor_ticks n fuel states s))
        = carry + tstate_steps * Z.of_nat n.
Proof.
  intros Hprog Hfuel. induction n as [|n IH]; intros states s Hst;
    cbn [minor_ticks].
  - exists states.
    split; [reflexivity|split; [exact Hst|unfold tstate_steps; cbn; lia]].
  - rewrite result_bind, output_bind, used_total_app.
    destruct (minor_tick_conserves fuel states s Hprog Hfuel Hst)
      as (c1 & -> & Hc1 & Hsum1).
    destruct (IH c1 (final (minor_tick fuel states s)) Hc1)
      as (c2 & Hres & Hc2 & Hsum2).
    exists c2. split; [exact Hres|split; [exact Hc2|lia]].
Qed.

Lemma fdc_groups_conserves (n fuel : nat) :
  engines_progress ->
  (737 <= fuel)%nat ->
  forall states s,
    0 <= states < 2 ^ 30 ->
    exists carry,
      result (fdc_groups n fuel states s) = Some carry /\
      0 <= carry < 2 ^ 30 /\
      states + used_total (output (fdc_groups n fuel states s))
        = carry + tstate_steps * 10 * Z.of_nat n.
Proof.
  intros Hprog Hfuel. induction n as [|n IH]; intros states s Hst;
    cbn [fdc_groups].
  - exists states.
    split; [reflexivity|split; [exact Hst|unfold tstate_steps; cbn; lia]].
  - rewrite result_bind, output_bind, used_total_app.
    destruct (minor_ticks_conserves 10 fuel Hprog Hfuel states s Hst)
      as (c1 & -> & Hc1 & Hsum1).
    rewrite result_bind, output_bind, used_total_app.
    set (s' := final (device call_fdc_tick fdc_tick
                        (final (minor_ticks 10 fuel states s)))).
    destruct (IH c1 s' Hc1) as (c2 & Hres & Hc2 & Hsum2).
    exists c2. split; [exact Hres|split; [exact Hc2|]].
    change (used_total (output (device call_fdc_tick fdc_tick
              (final (minor_ticks 10 fuel states s))))) with 0.
    change (Z.of_nat 10) with 10 in Hsum1. lia.
Qed.

(** X20.  Cycle accounting of a pass: with engines that make progress,
    a pass reaches its end, and the clock states that the DMA engine
    and the CPU core report in it add up to 500 quanta of 737 states
    plus the surplus left in [states] at the end; nothing is counted
    twice and nothing is dropped between the quanta. *)
Theorem pass_conserves_cycles (fuel : nat) (s : machine) :
  engines_progress ->
  (737 <= fuel)%nat ->
  exists carry,
    result (run_20ms fuel s) = Some carry /\
    0 <= carry < 2 ^ 30 /\
    result (main_pass fuel s) = true /\
    used_total (output (main_pass fuel s)) = 500 * 737 + carry.
Proof.
  intros Hprog Hfuel.
  destruct (fdc_groups_conserves 50 fuel Hprog Hfuel 0 s ltac:(lia))
    as (carry & Hres & Hrange & Hsum).
  exists carry. rewrite main_pass_eq, run_20ms_eq. cbv zeta.
  rewrite Hres. cbv beta iota.
  repeat (progress (rewrite ?triple_result, ?triple_output, ?triple_final);
          cbv beta iota).
  rewrite !used_total_app.
  split; [reflexivity|split; [exact Hrange|split; [reflexivity|]]].
  unfold tstate_steps in Hsum. change (Z.of_nat 50) with 50 in Hsum.
  assert (Hsleep : used_total
            (if truthy (fast (final (fdc_groups 50 fuel 0 s)))
             then [] else [call_nanosleep]) = 0)
    by now destruct (truthy _).
  assert (Hblock : used_total
            (output (service_recalc (final (fdc_groups 50 fuel 0 s)))) = 0)
    by now destruct (service_recalc_output
                       (final (fdc_groups 50 fuel 0 s))) as [-> | ->].
  lia.
Qed.

Lemma run_quantum_stalled (fuel : nat) :
  (forall s : machine, fst (z180_dma s) <> 0) ->
  forall states s,
    count is_cpu_call (output (run_quantum fuel states s)) = 0%nat.
Proof.
  intros Hbusy. induction fuel as [|fuel IH]; intros states s;
    destruct (Z.lt_ge_cases states tstate_steps) as [Hlt|Hge];
    try (now rewrite run_quantum_done by assumption).
  - now rewrite run_quantum_out_of_fuel by assumption.
  - rewrite run_quantum_step by assumption. cbv zeta.
    destruct (Z.eqb_spec (fst (z180_dma s)) 0) as [Hz|Hnz];
      [now apply Hbusy in Hz|].
    rewrite triple_output. unfold count. cbn [filter is_cpu_call]. apply IH.
Qed.

(** X21.  A DMA engine that uses states on every call starves the CPU:
    the output of a pass then contains no call of the CPU core, however
    long the pass runs. *)
Theorem dma_stall_starves_cpu (fuel : nat) (s : machine) :
  (forall s' : machine, fst (z180_dma s') <> 0) ->
  count is_cpu_call (output (main_pass fuel s)) = 0%nat.
Proof.
  intros Hbusy. rewrite main_pass_eq, run_20ms_eq. cbv zeta.
  assert (Hg : count is_cpu_call (output (fdc_groups 50 fuel 0 s)) = 0%nat).
  { apply fdc_groups_count; try reflexivity.
    intros. now apply run_quantum_stalled. }
  destruct (result (fdc_groups 50 fuel 0 s));
    repeat (progress (rewrite ?triple_result, ?triple_output, ?triple_final);
            cbv beta iota); [|exact Hg].
  rewrite !count_app, Hg.
  destruct (service_recalc_output (final (fdc_groups 50 fuel 0 s)))
    as [-> | ->]; now destruct (truthy _).
Qed.

(** ** The diagnostic line *)

(** X22.  The line of [diag_write]: twelve bytes, a line feed and an
    opening bracket, eight columns, a closing bracket and a line feed;
    column [i] shows bit [i] of the value, least significant bit first,
    as an at sign when the bit is set and a dash when it is clear.
    Nothing is written when [leds] is clear. *)
Theorem diag_line_shows_bits (s : machine) (val : Z) :
  diag_write val s
    = (tt, s, if leds s =? 0 then [] else [stdout_leds val]) /\
  length (diag_line val) = 12%nat /\
  firstn 2 (diag_line val) = [0x0A; 0x5B] /\
  skipn 10 (diag_line val) = [0x5D; 0x0A] /\
  (forall i, (i < 8)%nat ->
     nth (i + 2) (diag_line val) 0 =
       if Z.testbit val (Z.of_nat i) then 0x40 else 0x2D).
Proof.
  assert (Hb : forall i, truthy (Z.land val (Z.shiftl 1 (Z.of_nat i)))
                         = Z.testbit val (Z.of_nat i)).
  { intros i. rewrite Z.shiftl_1_l. apply truthy_land_pow2. lia. }
  split.
  { unfold diag_write. run. now destruct (leds s =? 0). }
  unfold diag_line. cbn [seq fold_left]. rewrite !Hb.
  repeat split.
  1-3: repeat match goal with
              | |- context [if ?c then _ else _] => destruct c
              end; reflexivity.
  intros i Hi.
  do 8 (destruct i as [|i];
        [repeat match goal with
                | |- context [if ?c then _ else _] => destruct c
                end; reflexivity|]).
  lia.
Qed.

(** ** What moves the detector *)

(** X23.  Only [mem_read] moves the ED 4D detector: memory writes, port
    reads, port writes and the recalculation block leave [rstate] as it
    is, so such accesses between the ED and the 4D do not break the
    sequence. *)
Theorem detector_moved_by_reads_only (s : machine) (addr val : Z) :
  rstate (final (mem_write addr val s)) = rstate s /\
  rstate (final (io_read addr s)) = rstate s /\
  rstate (final (io_write addr val s)) = rstate s /\
  rstate (final (service_recalc s)) = rstate s.
Proof.
  split; [|split; [|split]].
  - rewrite mem_write_final.
    now destruct (phys_write_keeps s (z180_mmu_translate (ext s) addr) val)
      as (_ & _ & _ & -> & _).
  - unfold io_read, my_ide_read, fdc_read, ppi_read. crunch; reflexivity.
  - unfold io_write, my_ide_write, fdc_write, diag_write, ppi_write,
      ppi_write_switch, ppi_recalc.
    crunch; reflexivity.
  - rewrite service_recalc_eq. cbv zeta.
    repeat match goal with
           | |- context [if ?c then _ else _] => destruct c
           end; reflexivity.
Qed.

(** ** The drives *)

(** X24.  The [-F] options and the drives: up to two images are
    accepted and a third one ends the program; every call that sets a
    type, a geometry or a file name is made on [drive_a], so with two
    images both file names go to [drive_a], the second one last, and
    [drive_b] is created and attached without a file name. *)
Theorem floppy_images_all_go_to_drive_a {P : Type} (args : list P) :
  (floppy_options args (None, None) <> None <-> (length args <= 2)%nat) /\
  (forall paths,
     floppy_options args (None, None) = Some paths ->
     (forall c, In c (drive_setup paths) -> configured c <> Some drive_b) /\
     filenames (drive_setup paths) = map (fun path => (drive_a, path)) args).
Proof.
  destruct args as [|a [|b [|c args]]]; cbn [floppy_options option_F length].
  - split; [split; [lia|discriminate]|].
    intros paths Hp. injection Hp as <-. split; [|reflexivity].
    intros c Hc. cbn in Hc.
    repeat (destruct Hc as [<-|Hc]; [discriminate|]). destruct Hc.
  - split; [split; [lia|discriminate]|].
    intros paths Hp. injection Hp as <-. split; [|reflexivity].
    intros c Hc. cbn in Hc.
    repeat (destruct Hc as [<-|Hc]; [discriminate|]). destruct Hc.
  - split; [split; [lia|discriminate]|].
    intros paths Hp. injection Hp as <-. split; [|reflexivity].
    intros c Hc. cbn in Hc.
    repeat (destruct Hc as [<-|Hc]; [discriminate|]). destruct Hc.
  - split; [split; [intros Hn; now contradiction Hn|lia]|].
    intros paths Hp. discriminate Hp.
Qed.

(** C9.  The initial values of the 82C55 registers are 0xFF, 0xFF, 0xFF
    and 0x9B; bits 3 and 2 of port A are therefore set, the base half
    reads ROM and discards writes, and the extended half reads and
    writes RAM. *)
Theorem machine_init_banks (ram0 rom0 : Z -> Z) (trace0 leds0 fast0 ide0 : Z)
    (sd : bool) (x : X) :
  let s := machine_init ram0 rom0 trace0 leds0 fast0 ide0 sd x in
  port_a s = 0xFF /\ port_b s = 0xFF /\ port_c s = 0xFF /\
  port_ctl s = 0x9B /\
  Z.testbit (port_a s) 3 = true /\ Z.testbit (port_a s) 2 = true /\
  (forall addr,
     z180_phys_read s addr =
       if Z.testbit addr 19 then ram0 (Z.land addr 0xFFFFF)
       else rom0 (Z.land addr 0x3FFFF)) /\
  (forall addr val,
     final (z180_phys_write addr val s) =
       if Z.testbit addr 19
       then set_ram (store ram0 (Z.land addr 0xFFFFF) val) s
       else s).
Proof.
  intros s. repeat split.
  - intros addr. rewrite phys_read_eq. reflexivity.
  - intros addr val. rewrite phys_write_eq.
    change (Z.testbit (port_a s) 2) with true.
    change (Z.testbit (port_a s) 3) with true.
    now destruct (Z.testbit addr 19).
Qed.

End Facts.

(** ** The bus on the concrete platform *)

(** C1 at 0x40000: the read returns the first byte of the ROM image,
    not the byte at offset 0x40000 of the 512 KiB array. *)
Lemma phys_read_rom_wraps_at_256K_witness :
  z180_phys_read demo 0x40000 = demo_rom 0 /\
  demo_rom 0 <> demo_rom (Z.land 0x40000 0x7FFFF).
Proof.
  split.
  - apply (phys_read_rom_wraps_at_256K demo 0x40000); reflexivity.
  - vm_compute. discriminate.
Defined.

Lemma phys_extended_disabled_witness :
  z180_phys_read (set_port_a 0xFB demo) 0x80000 = 0xFF /\
  z180_phys_write 0x80000 0x12 (set_port_a 0xFB demo)
    = (tt, set_port_a 0xFB demo, []) /\
  z180_phys_read (final (z180_phys_write 0x80000 0x12 (set_port_a 0xFB demo)))
    0x80000 = z180_phys_read (set_port_a 0xFB demo) 0x80000.
Proof.
  apply (phys_extended_disabled (set_port_a 0xFB demo) 0x80000 0x12);
    reflexivity.
Defined.

(** ** Port dispatch on the concrete platform *)

(** C5 at port 0x77 with tracing off: the read returns 0xFF without any
    output, where the floppy handler returns 0x78. *)
Lemma io_read_0x77_misses_fdc_witness :
  io_read 0x77 demo = (0xFF, demo, []) /\
  result (fdc_read 7 demo) = 0x78 /\
  output (io_write 0x77 0x01 demo) = [stderr_fdc_write 7 0x01].
Proof.
  destruct (io_read_0x77_misses_fdc demo 0x77 0x01)
    as (Hread & _ & Hfdc & Hwrite); [reflexivity|reflexivity|].
  split; [exact Hread|split; [exact Hfdc|]].
  rewrite Hwrite. reflexivity.
Defined.

(** ** The 82C55 on the concrete platform *)

(** C6 with the value 0x09: bit 4 of a cleared port C is set and its
    neighbours stay clear. *)
Lemma ppi_control_write_witness :
  Z.testbit (port_c (final (ppi_write 3 0x09 (set_port_c 0 demo)))) 4 = true /\
  Z.testbit (port_c (final (ppi_write 3 0x09 (set_port_c 0 demo)))) 3 = false /\
  Z.testbit (port_c (final (ppi_write 3 0x09 (set_port_c 0 demo)))) 5 = false.
Proof.
  destruct (ppi_control_write (set_port_c 0 demo) 0x09) as [_ Hbit];
    [lia | cbn; lia | ].
  destruct (Hbit eq_refl) as [Hc _].
  rewrite (Hc 4), (Hc 3), (Hc 5) by lia. repeat split.
Defined.

(** C7 with the select going from 3 to 0. *)
Lemma chip_select_transitions_witness :
  cs_events (output (ppi_write 2 0xF8 cs3_demo)) = [call_sd_spi_lower_cs] /\
  old_cs (final (ppi_write 2 0xF8 cs3_demo)) = 0.
Proof.
  destruct (chip_select_transitions cs3_demo 2 0xF8)
    as (Hlower & _ & _ & _ & Hcache); [reflexivity|reflexivity|].
  split.
  - apply Hlower; [discriminate|reflexivity].
  - exact Hcache.
Defined.

(** ** The detector on the concrete platform *)

(** C3 with both bytes delivered as opcode fetches. *)
Lemma reti_after_ED_fetch_witness :
  let s1 := final (mem_read 2 reti_demo) in
  reti_events (output (mem_read 2 reti_demo)) = 0%nat /\
  reti_events (output (mem_read 3 s1)) = 1%nat /\
  live_irq (final (mem_read 3 s1)) = 0.
Proof.
  intros s1.
  destruct (reti_after_ED_fetch reti_demo s1 2 3)
    as (Hfirst & Hsecond & Hlive & _); try reflexivity.
  repeat split; assumption.
Defined.

(** C3 as stated fails: ED is delivered by an opcode fetch, the CPU
    core clears [M1], the next read delivers 4D as a data read, and the
    RETI event runs. *)
Lemma reti_fires_on_operand_read :
  let s1 := with_M1 0 (final (mem_read 2 reti_demo)) in
  rstate reti_demo = 0 /\
  truthy (cpu_M1 (ext reti_demo)) = true /\
  result (mem_read 2 reti_demo) = 0xED /\
  truthy (cpu_M1 (ext s1)) = false /\
  result (mem_read 3 s1) = 0x4D /\
  reti_events (output (mem_read 3 s1)) = 1%nat /\
  reti_events (output (mem_read 3 s1)) <> 0%nat.
Proof. vm_compute. repeat split. discriminate. Qed.

(** C10 with the bytes ED, DD, 4D. *)
Lemma detector_left_after_other_byte_witness :
  let s1 := final (mem_read 0 reti_demo) in
  let s2 := final (mem_read 1 s1) in
  reti_events (output (mem_read 1 s1)) = 0%nat /\
  rstate s2 = 2 /\
  reti_events (output (mem_read 3 s2)) = 0%nat.
Proof.
  intros s1 s2.
  destruct (detector_left_after_other_byte reti_demo s1 s2 0 1 3)
    as (Hquiet & Hstate & Hlater); try reflexivity.
  - vm_compute. discriminate.
  - repeat split; assumption.
Defined.

(** C10 as stated fails: after the opcode-fetched ED, an opcode fetch of
    DD (a byte other than 4D) leaves the detector in state 2, not in the
    idle state 0; and state 2 is not idle, for ED 4D fetched from it
    runs no RETI event, where the same two fetches from state 0 run
    one. *)
Lemma detector_not_idle_after_prefix :
  let s1 := final (mem_read 0 reti_demo) in
  let s2 := final (mem_read 1 s1) in
  result (mem_read 0 reti_demo) = 0xED /\
  result (mem_read 1 s1) = 0xDD /\
  rstate s2 = 2 /\
  rstate s2 <> 0 /\
  reti_events (output (mem_read 3 (final (mem_read 2 s2)))) = 0%nat /\
  reti_events (output (mem_read 3 (final (mem_read 2 (set_rstate 0 s2)))))
    = 1%nat.
Proof. vm_compute. repeat split. discriminate. Qed.

(** The idle start matters: when the ED is fetched with the detector
    already in state 1, that fetch resets it, a second fetched ED arms
    it again, and the 4D after it runs the RETI event. *)
Example detector_rearmed_from_state_1 :
  let s1 := final (mem_read 2 (set_rstate 1 reti_demo)) in
  let s2 := final (mem_read 0 s1) in
  rstate s1 = 0 /\ rstate s2 = 1 /\
  reti_events (output (mem_read 3 s2)) = 1%nat.
Proof. vm_compute. repeat split. Qed.

(** ** The main loop on the concrete platform *)

(** The engines of the platform make progress, so every pass of its
    main loop completes with 737 iterations per quantum. *)
Lemma demo_engines_progress : engines_progress (X := demo_ext).
Proof.
  intros s. cbn [z180_dma Z180Execute demo_engines].
  destruct (0 <? d_dma (ext s)); cbn [fst snd].
  - split; [lia|intros Hz; discriminate Hz].
  - split; [lia|intros _].
    change 0x7F with (Z.ones 7). rewrite Z.land_ones by lia.
    pose proof (Z.mod_pos_bound (d_cycles (ext s)) (2 ^ 7) eq_refl). lia.
Qed.

Lemma demo_pass_completes (s : machine demo_ext) :
  result (main_pass 737 s) = true.
Proof. apply main_pass_completes; [exact demo_engines_progress|lia]. Qed.

(** The first minor tick: three DMA bursts, then eight instructions. *)
Example first_minor_tick :
  output (minor_tick 737 0 demo) =
    [call_z180_dma 6; call_z180_dma 6; call_z180_dma 6]
    ++ concat (repeat [call_z180_dma 0; call_Z180Execute 100] 8)
    ++ [call_z180_event 818].
Proof. vm_compute. reflexivity. Qed.

(** The check accepts the output of a whole pass of the platform. *)
Example demo_pass_dma_first : dma_firstb (output (main_pass 737 demo)) = true.
Proof. vm_compute. reflexivity. Qed.

(** C4 on a pass with the flag set. *)
Lemma recalc_serviced_once_per_pass_witness :
  count is_minor_tick (output (run_20ms 737 sched_demo)) = 500%nat /\
  count is_poll (output (run_20ms 737 sched_demo)) = 0%nat /\
  count is_poll (output (service_recalc (final (run_20ms 737 sched_demo))))
    = 1%nat.
Proof.
  destruct (recalc_serviced_once_per_pass 737 sched_demo
              (demo_pass_completes sched_demo))
    as (_ & Hticks & Hquiet & _ & Hblock & _).
  split; [exact Hticks|split; [exact Hquiet|]].
  rewrite Hblock. vm_compute. reflexivity.
Defined.

(** C4 as stated fails: in a pass that starts with the flag set and no
    interrupt live, and in which the flag stays set (the CPU has
    interrupts enabled), there are 500 minor ticks and one call of the
    interrupt controller, not one per minor tick. *)
Lemma recalc_not_serviced_every_minor_tick :
  let r := main_pass 737 sched_demo in
  result r = true /\
  truthy (int_recalc sched_demo) = true /\
  truthy (live_irq sched_demo) = false /\
  truthy (int_recalc (final r)) = true /\
  count is_minor_tick (output r) = 500%nat /\
  count is_poll (output r) = 1%nat /\
  count is_poll (output r) <> count is_minor_tick (output r).
Proof. vm_compute. repeat split. discriminate. Qed.

(** ** Further properties on the concrete platform *)

(** X1 with the addresses 5 and 0x100005. *)
Lemma phys_bus_wraps_witness :
  z180_phys_read demo 0x100005 = z180_phys_read demo 5 /\
  z180_phys_write 0x100005 1 demo = z180_phys_write 5 1 demo.
Proof. apply (phys_bus_wraps demo 0x100005 5 1). reflexivity. Defined.

(** X2 with the ROM switched off: the byte written at 0x100010 is read
    at 0x10, and the neighbour keeps its value. *)
Lemma phys_read_after_write_witness :
  z180_phys_read (final (z180_phys_write 0x100010 0x12 (set_port_a 0xF7 demo)))
    0x10 = 0x12 /\
  z180_phys_read (final (z180_phys_write 0x100010 0x12 (set_port_a 0xF7 demo)))
    0x11 = 0x55.
Proof.
  rewrite !(phys_read_after_write (set_port_a 0xF7 demo) 0x100010 0x12) by lia.
  split; reflexivity.
Defined.

(** X3 with the ROM switched off, and with the ROM in place. *)
Lemma mem_read_after_mem_write_witness :
  result (mem_read 0x1234
            (final (mem_write 0x1234 0x12 (set_port_a 0xF7 demo)))) = 0x12 /\
  result (mem_read 0x1234 (final (mem_write 0x1234 0x12 demo))) = 0.
Proof.
  rewrite (mem_read_after_mem_write (set_port_a 0xF7 demo) 0x1234 0x12) by lia.
  rewrite (mem_read_after_mem_write demo 0x1234 0x12) by lia.
  split; reflexivity.
Defined.

(** X7 at start-up, where port A is an input, and with the mode word
    0x80, where it is an output. *)
Lemma ppi_read_back_witness :
  result (ppi_read 0 (final (ppi_write 0 0x12 demo))) = 0xFF /\
  result (ppi_read 0 (final (ppi_write 0 0x12 (set_port_ctl 0x80 demo))))
    = 0x12.
Proof.
  destruct (ppi_read_back demo 0x12) as (Hin & _); [lia|].
  destruct (ppi_read_back (set_port_ctl 0x80 demo) 0x12) as (Hout & _); [lia|].
  split; [exact Hin|exact Hout].
Defined.

(** X5 on the platform at start-up. *)
Lemma live_irq_stays_clear_witness :
  live_irq (final (mem_read 3 demo)) = 0 /\
  live_irq (final (io_write 0x7A 0 demo)) = 0.
Proof.
  destruct (live_irq_stays_clear demo 3 0) as ((Hr & _) & _);
    [reflexivity|].
  destruct (live_irq_stays_clear demo 0x7A 0) as (_ & _ & _ & Hw & _);
    [reflexivity|].
  split; assumption.
Defined.

(** X6 after an opcode fetch of ED. *)
Lemma z80dis_byte_quiet_transparent_witness :
  let s1 := final (mem_read 2 reti_demo) in
  z80dis_byte_quiet 1 s1 = (0xDD, s1, []) /\
  rstate (final (mem_read 1 s1)) <> rstate s1.
Proof.
  intros s1.
  destruct (z80dis_byte_quiet_transparent s1 1) as [Hq Hmove].
  split; [exact Hq|apply Hmove; reflexivity].
Defined.

(** X8 at start-up, where both nibbles are inputs. *)
Lemma ppi_read_port_c_witness :
  Z.testbit (result (ppi_read 2 (set_port_c 0 demo))) 5 = true.
Proof.
  destruct (ppi_read_port_c (set_port_c 0 demo) 5) as [Hbit _]; [lia|].
  rewrite Hbit. reflexivity.
Defined.

(** X9 with the ports 0x7A and 0x7E. *)
Lemma ppi_window_mirrors_witness :
  result (io_read 0x7A demo) = result (io_read 0x7E demo) /\
  final (io_write 0x7A 0x12 demo) = final (io_write 0x7E 0x12 demo).
Proof.
  destruct (ppi_window_mirrors demo 0x7A 0x7E 0x12) as (Hr & _ & Hw);
    try reflexivity; try (cbn; lia).
  split; assumption.
Defined.

(** X10 with "set bit 4" and "reset bit 1". *)
Lemma bit_commands_compose_witness :
  port_c (final (ppi_write 3 0x02 (final (ppi_write 3 0x09 demo))))
    = port_c (final (ppi_write 3 0x09 (final (ppi_write 3 0x02 demo)))).
Proof.
  destruct (bit_commands_compose demo 0x09 0x02) as [Hcomm _];
    [cbn; lia|reflexivity|reflexivity|].
  apply Hcomm. discriminate.
Defined.

(** X11 on a run that selects the card and lets go of it. *)
Lemma chip_select_alternates_witness :
  cs_alternates false (output (io_writes cs_writes demo)) = true /\
  cs_events (output (io_writes cs_writes demo))
    = [call_sd_spi_lower_cs; call_sd_spi_raise_cs].
Proof.
  split.
  - apply (chip_select_alternates cs_writes demo); reflexivity.
  - reflexivity.
Defined.

(** X12 on the same run without a card. *)
Lemma no_card_no_chip_select_witness :
  cs_events (output (io_writes cs_writes nocard_demo)) = [] /\
  old_cs (final (io_writes cs_writes nocard_demo)) = 7.
Proof. apply (no_card_no_chip_select cs_writes nocard_demo). reflexivity. Defined.

(** X13 with port 0x0110 (low byte in the IDE window, no IDE device
    configured) and port 0xFD. *)
Lemma undecoded_ports_witness :
  io_read 0x0110 demo = (0xFF, demo, []) /\
  final (io_write 0x0110 0x55 demo) = demo /\
  io_read 0xFD demo = (0xFF, demo, []).
Proof.
  destruct (undecoded_ports demo 0x0110 0x55) as [Hr Hw];
    [reflexivity|left; discriminate|left; reflexivity|].
  destruct (undecoded_ports demo 0xFD 0) as [Hr' _];
    [reflexivity|left; discriminate|right; reflexivity|].
  split; [exact Hr|split; [|exact Hr']].
  apply Hw; discriminate.
Defined.

(** X14 with the trace word 0x0124. *)
Lemma trace_ports_set_word_witness :
  trace (final (io_write 0xFE 0x01 (final (io_write 0xFD 0x24 demo)))) = 0x0124 /\
  trace (final (io_write 0xFD 0x24 (final (io_write 0xFE 0x01 demo)))) = 0x0124.
Proof.
  apply (trace_ports_set_word demo 0xFD 0xFE 0x24 0x01); reflexivity || lia.
Defined.

(** X15 with the ports 0x70 and 0x72. *)
Lemma fdc_ports_read_witness :
  result (io_read 0x70 demo) = 0x80 /\
  result (io_read 0x72 demo) = 0x78 /\ final (io_read 0x72 demo) = demo.
Proof.
  destruct (fdc_ports_read demo 0x70) as (Hst & _ & _);
    [reflexivity|cbn; lia|].
  destruct (fdc_ports_read demo 0x72) as (_ & _ & Hdor);
    [reflexivity|cbn; lia|].
  split; [exact (Hst eq_refl)|apply Hdor; cbn; lia].
Defined.

(** X16: switching the ROM off makes address 0 read RAM. *)
Lemma port_a_write_switches_banks_witness :
  z180_phys_read demo 0x30000 = 3 /\
  z180_phys_read (final (io_write 0x78 0xF7 demo)) 0x30000 = 0x55.
Proof.
  split; [reflexivity|].
  rewrite (port_a_write_switches_banks demo 0x78 0xF7 0x30000);
    [reflexivity|reflexivity|now left].
Defined.

(** X18 with the bytes DD, ED, 4D. *)
Lemma prefix_blocks_reti_witness :
  let s1 := final (mem_read 1 reti_demo) in
  let s2 := final (mem_read 2 s1) in
  rstate s1 = 2 /\ reti_events (output (mem_read 3 s2)) = 0%nat.
Proof.
  intros s1 s2.
  destruct (prefix_blocks_reti reti_demo s1 s2 1 2 3)
    as (Hst & _ & _ & Hquiet); try reflexivity.
  split; assumption.
Defined.

(** X19 on a pass of the platform. *)
Lemma pass_time_scales_witness :
  tick_pattern (output (main_pass 737 demo))
    = concat (repeat (repeat false 10 ++ [true]) 50) /\
  count is_sleep (output (main_pass 737 demo)) = 0%nat.
Proof.
  destruct (pass_time_scales 737 demo (demo_pass_completes demo))
    as [Hpat Hsleep].
  split; [exact Hpat|]. rewrite Hsleep. vm_compute. reflexivity.
Defined.

(** X20 on a pass of the platform. *)
Lemma pass_conserves_cycles_witness :
  exists carry,
    result (run_20ms 737 demo) = Some carry /\
    0 <= carry < 2 ^ 30 /\
    result (main_pass 737 demo) = true /\
    used_total (output (main_pass 737 demo)) = 500 * 737 + carry.
Proof.
  apply (pass_conserves_cycles 737 demo demo_engines_progress). lia.
Defined.

(** X21 with a DMA engine that moves 6 states on every call. *)
Lemma dma_stall_starves_cpu_witness :
  count is_cpu_call
    (output (main_pass (H0 := stalled_engines) 737 demo)) = 0%nat.
Proof.
  apply (dma_stall_starves_cpu (H0 := stalled_engines) 737 demo).
  intros s'. discriminate.
Defined.

(** X24 with two images. *)
Lemma floppy_images_all_go_to_drive_a_witness :
  filenames (drive_setup (Some 1, Some 2)) = [(drive_a, 1); (drive_a, 2)] /\
  floppy_options [1; 2; 3] (None, None) = None.
Proof.
  destruct (floppy_images_all_go_to_drive_a [1; 2]) as [_ Hsetup].
  destruct (Hsetup (Some 1, Some 2) eq_refl) as [_ Hnames].
  split; [exact Hnames|reflexivity].
Defined.
